(** * The no-CVR stratum search of [hybrid-audit-example-2.ipynb]

    The notebook's last code cell seeds numpy's generator, builds the
    population of the no-CVR stratum, computes the null margin [c] and then
    walks [range(20, 10000, 20)], drawing a sample of [n] ballots at each
    step and asking [trihypergeometric_optim] for a p-value until one falls
    below [alpha2].

    The cell is embedded as a computation over the notebook's global
    variables, numpy's global generator and the cell's printed output.
    Python floats are IEEE 754 binary64 numbers; they are modelled with the
    executable specification of the standard library ([SpecFloat]).

    The first code cell holds the imports: it binds [np],
    [trihypergeometric_optim] and [findNmin_ballot_comparison_rates].  The
    embedding starts after it: these three names are bound in every
    namespace below and do not appear as variables, so a kernel in which
    the imports have not run (where the later cells fail on one of these
    names) is outside the model. *)

From Stdlib Require Import ZArith List Bool Lia QArith.
From Stdlib Require Import Floats.SpecFloat.
Import ListNotations.

Open Scope Z_scope.

(** ** Python floats *)

Module Float64.

Definition prec : Z := 53.
Definition emax : Z := 1024.

Definition float64 : Type := spec_float.

(** [float(z)] for a Python int. *)
Definition of_int (z : Z) : float64 := binary_normalize prec emax z 0 false.

Definition add : float64 -> float64 -> float64 := SFadd prec emax.
Definition sub : float64 -> float64 -> float64 := SFsub prec emax.
Definition mul : float64 -> float64 -> float64 := SFmul prec emax.
Definition div : float64 -> float64 -> float64 := SFdiv prec emax.

(** [x < y] and [x <= y] on floats; both are [False] when a side is NaN. *)
Definition ltb : float64 -> float64 -> bool := SFltb.
Definition leb : float64 -> float64 -> bool := SFleb.

(** A decimal literal [num / 10^k], read as the nearest binary64 number:
    the division of two exactly representable integers is correctly
    rounded, which is how Python reads [0.9] or [0.0404]. *)
Definition decimal (num den : Z) : float64 := div (of_int num) (of_int den).

Definition nan : float64 := S754_nan.
Definition zero : float64 := S754_zero false.
Definition one : float64 := of_int 1.

(** The rational number a finite float stands for. *)
Definition to_Q (x : float64) : option Q :=
  match x with
  | S754_zero _ => Some 0%Q
  | S754_finite s m e =>
      let v := (inject_Z (Zpos m) * Qpower 2 e)%Q in
      Some (if s then Qopp v else v)
  | S754_infinity _ | S754_nan => None
  end.

End Float64.

Import Float64.

(** ** Python's [range] *)

(** Number of elements of [range(start, stop, step)], as CPython computes
    it; [step = 0] is rejected before this is reached. *)
Definition range_len (start stop step : Z) : Z :=
  if 0 <? step then
    if start <? stop then (stop - start - 1) / step + 1 else 0
  else if step <? 0 then
    if stop <? start then (start - stop - 1) / (- step) + 1 else 0
  else 0.

Definition py_range (start stop step : Z) : list Z :=
  map (fun i => start + Z.of_nat i * step)
      (seq 0 (Z.to_nat (range_len start stop step))).

(** [ceil(a / b)], written [-(-a // b)] in Python. *)
Definition ceil_div (a b : Z) : Z := - ((- a) / b).

(** ** The notebook's global variables *)

(** A Python name is bound or not; the fields are the names the code
    cells after the imports assign, with the types of the values they
    hold.  The names the import cell binds are not among them. *)
Module G.

Record t : Type := mk {
  lambda1 : option float64;
  lambda2 : option float64;
  alpha1 : option float64;
  alpha2 : option float64;
  margin : option Z;
  N1 : option Z;
  N2 : option Z;
  pop : option (list float64);
  c : option float64;
  n : option Z;
  sample : option (list float64);
  pval : option float64
}.

(** The namespace of a kernel in which the import cell alone has run:
    none of the names the later cells assign is bound. *)
Definition empty : t :=
  mk None None None None None None None None None None None None.

Definition set_pop (x : list float64) (v : t) : t :=
  mk (lambda1 v) (lambda2 v) (alpha1 v) (alpha2 v) (margin v) (N1 v) (N2 v)
     (Some x) (c v) (n v) (sample v) (pval v).
Definition set_c (x : float64) (v : t) : t :=
  mk (lambda1 v) (lambda2 v) (alpha1 v) (alpha2 v) (margin v) (N1 v) (N2 v)
     (pop v) (Some x) (n v) (sample v) (pval v).
Definition set_n (x : Z) (v : t) : t :=
  mk (lambda1 v) (lambda2 v) (alpha1 v) (alpha2 v) (margin v) (N1 v) (N2 v)
     (pop v) (c v) (Some x) (sample v) (pval v).
Definition set_sample (x : list float64) (v : t) : t :=
  mk (lambda1 v) (lambda2 v) (alpha1 v) (alpha2 v) (margin v) (N1 v) (N2 v)
     (pop v) (c v) (n v) (Some x) (pval v).
Definition set_pval (x : float64) (v : t) : t :=
  mk (lambda1 v) (lambda2 v) (alpha1 v) (alpha2 v) (margin v) (N1 v) (N2 v)
     (pop v) (c v) (n v) (sample v) (Some x).

(** The second code cell:
<<
 lambda1 = 0.9
 lambda2 = 1-lambda1
 alpha1 = 0.01
 alpha2 = 0.0404
 margin = 389000
 N1 = 1900000
 N2 = 100000
>> *)
Definition cell2 (v : t) : t :=
  let l1 := decimal 9 10 in
  mk (Some l1) (Some (sub (of_int 1) l1))
     (Some (decimal 1 100)) (Some (decimal 404 10000))
     (Some 389000) (Some 1900000) (Some 100000)
     (pop v) (c v) (n v) (sample v) (pval v).

(** Two namespaces agree on every name the search loop does not assign. *)
Definition same_fixed (v w : t) : Prop :=
  lambda1 v = lambda1 w /\ lambda2 v = lambda2 w /\
  alpha1 v = alpha1 w /\ alpha2 v = alpha2 w /\
  margin v = margin w /\ N1 v = N1 w /\ N2 v = N2 w /\
  pop v = pop w /\ c v = c w.

End G.

(** An int that Python converts to a float: the nearest binary64 number
    is finite.  For the others (those that round to [2**1024] or beyond,
    in absolute value) the conversion raises [OverflowError]. *)
Definition converts (z : Z) : bool :=
  match of_int z with
  | S754_infinity _ | S754_nan => false
  | _ => true
  end.

(** The value of [(42500-52500) - lambda2*margin] for a margin that
    converts to a float: the int operands are converted, the product and
    the difference are float operations (an overflow of these yields an
    infinity, not an exception).  The conversion itself, which may fail,
    is the cell's step [float_of_int] below. *)
Definition null_margin_expr (l2 : float64) (mg : Z) : float64 :=
  sub (of_int (42500 - 52500)) (mul l2 (of_int mg)).

(** The value the last cell gives [c] after the second cell has run:
    [lambda2] is [1 - 0.9] and [margin] is 389000. *)
Definition c_notebook : float64 :=
  null_margin_expr (sub (of_int 1) (decimal 9 10)) 389000.

(** ** numpy's generator *)

(** The Mersenne Twister behind [np.random] is not part of the notebook;
    it enters as an interface: a state, [np.random.seed], and one bounded
    draw, which numpy guarantees to lie in [[0, high)]. *)
Class RandomState : Type := {
  rstate : Type;
  seed : Z -> rstate;
  randint : Z -> rstate -> Z * rstate;
  randint_range :
    forall high s, 0 < high -> 0 <= fst (randint high s) < high
}.

(** [k] successive draws from [[0, high)]. *)
Fixpoint randint_array `{RandomState} (high : Z) (k : nat) (s : rstate)
  : list Z * rstate :=
  match k with
  | O => ([], s)
  | S k' =>
      let (i, s1) := randint high s in
      let (rest, s2) := randint_array high k' s1 in
      (i :: rest, s2)
  end.

(** [[x]*k] on Python lists. *)
Definition py_repeat {A : Type} (x : A) (k : Z) : list A :=
  repeat x (Z.to_nat k).

(** [a[i]] for an index the generator produced. *)
Definition take_at (a : list float64) (i : Z) : float64 :=
  nth (Z.to_nat i) a nan.

(** [a[idx]] for [size] indices drawn from [[0, len(a))]: the sample and
    the generator's next state. *)
Definition draw `{RandomState} (a : list float64) (size : Z) (g : rstate)
  : list float64 * rstate :=
  let (idx, g') := randint_array (Z.of_nat (length a)) (Z.to_nat size) g in
  (map (take_at a) idx, g').

(** ** The cell as a computation *)

Inductive exn : Type := ValueError | NameError | OverflowError.

(** What the cell prints: [print("c= ", c)] and
    [print("n=", n, ", pvalue=", pval)]. *)
Inductive line : Type :=
| Print_c (c : float64)
| Print_n (n : Z) (pvalue : float64).

(** One call [trihypergeometric_optim(sample, popsize=.., null_margin=..)]. *)
Record call : Type := mk_call {
  arg_sample : list float64;
  arg_popsize : Z;
  arg_null_margin : float64
}.

(** How a [for] statement with a [break] in its body ends. *)
Inductive loop_exit : Type := Broke | Ran_out.

(** One pass through the loop body: the element of the range, the sample
    drawn for it and the p-value the oracle returned. *)
Record iteration : Type := mk_it {
  it_n : Z;
  it_sample : list float64;
  it_pval : float64
}.

(** A pass that did not reach [break]: its p-value is not below the risk
    limit. *)
Definition miss (alpha : float64) (it : iteration) : Prop :=
  ltb (it_pval it) alpha = false.

(** The three assignments of a pass, [n], [sample] and [pval]. *)
Definition after (v : G.t) (it : iteration) : G.t :=
  G.set_pval (it_pval it) (G.set_sample (it_sample it) (G.set_n (it_n it) v)).

Definition line_of (it : iteration) : line := Print_n (it_n it) (it_pval it).

Definition call_of (popsize : Z) (null_margin : float64) (it : iteration) : call :=
  mk_call (it_sample it) popsize null_margin.

Section Notebook.

Context {RS : RandomState}.

(** [trihypergeometric_optim] is imported from the [hypergeometric]
    module; the notebook only calls it.  It is a parameter: any function
    from a sample, a population size and a null margin to a float. *)
Variable trihypergeometric_optim : list float64 -> Z -> float64 -> float64.

Record machine : Type := mk_machine {
  vars : G.t;
  gen : rstate;
  stdout : list line;
  oracle_log : list call
}.

Inductive result (A : Type) : Type :=
| Ok (a : A) (m : machine)
| Raise (e : exn) (m : machine).
Arguments Ok {A} a m.
Arguments Raise {A} e m.

Definition M (A : Type) : Type := machine -> result A.

Definition ret {A} (a : A) : M A := fun m => Ok a m.

Definition bind {A B} (x : M A) (f : A -> M B) : M B :=
  fun m =>
    match x m with
    | Ok a m' => f a m'
    | Raise e m' => Raise e m'
    end.

Definition raise {A} (e : exn) : M A := fun m => Raise e m.

Notation "x <- a ;; b" := (bind a (fun x => b))
  (at level 61, a at next level, right associativity).
Notation "a ;; b" := (bind a (fun _ => b))
  (at level 61, right associativity).

(** Reading a name: [NameError] when it is unbound. *)
Definition read {A} (f : G.t -> option A) : M A :=
  fun m =>
    match f (vars m) with
    | Some a => Ok a m
    | None => Raise NameError m
    end.

Definition assign (upd : G.t -> G.t) : M unit :=
  fun m => Ok tt (mk_machine (upd (vars m)) (gen m) (stdout m) (oracle_log m)).

Definition print (l : line) : M unit :=
  fun m => Ok tt (mk_machine (vars m) (gen m) (stdout m ++ [l]) (oracle_log m)).

(** [np.random.seed(s)] *)
Definition np_random_seed (s : Z) : M unit :=
  fun m => Ok tt (mk_machine (vars m) (seed s) (stdout m) (oracle_log m)).

(** [np.random.choice(a, size)] with numpy's defaults [replace=True] and
    [p=None]: [size] indices are drawn from [[0, len(a))] and the result is
    [a[idx]], so an element may be drawn more than once.  numpy raises
    [ValueError] for a negative [size], and for an empty [a] unless no
    sample is asked for ([size = 0], which yields the empty array). *)
Definition np_random_choice (a : list float64) (size : Z)
  : M (list float64) :=
  fun m =>
    match a with
    | [] => if size =? 0 then Ok [] m else Raise ValueError m
    | _ :: _ =>
        if size <? 0 then Raise ValueError m
        else
          let (s, g') := draw a size (gen m) in
          Ok s (mk_machine (vars m) g' (stdout m) (oracle_log m))
    end.

(** The call of the p-value oracle; the call is logged so that the
    number and the arguments of the calls can be stated. *)
Definition call_oracle (s : list float64) (popsize : Z) (null_margin : float64)
  : M float64 :=
  fun m =>
    Ok (trihypergeometric_optim s popsize null_margin)
       (mk_machine (vars m) (gen m) (stdout m)
                   (oracle_log m ++ [mk_call s popsize null_margin])).

(** The conversion of an int operand of a float operation:
    [OverflowError] for an int too large for a float. *)
Definition float_of_int (z : Z) : M float64 :=
  if converts z then ret (of_int z) else raise OverflowError.

(** [range(start, stop, step)]: [ValueError] for a zero step. *)
Definition range (start stop step : Z) : M (list Z) :=
  if step =? 0 then raise ValueError else ret (py_range start stop step).

(** The body of the loop, for the element [k] of the range:
<<
  sample = np.random.choice(pop, n)
  pval = trihypergeometric_optim(sample, popsize=N2, null_margin=c)
  print("n=", n, ", pvalue=", pval)
  if pval < alpha2:
      break
>>
    The result says whether [break] was reached. *)
Definition body (k : Z) : M bool :=
  assign (G.set_n k) ;;
  a <- read G.pop ;;
  size <- read G.n ;;
  s <- np_random_choice a size ;;
  assign (G.set_sample s) ;;
  s' <- read G.sample ;;
  popsize <- read G.N2 ;;
  null_margin <- read G.c ;;
  p <- call_oracle s' popsize null_margin ;;
  assign (G.set_pval p) ;;
  n' <- read G.n ;;
  p' <- read G.pval ;;
  print (Print_n n' p') ;;
  p'' <- read G.pval ;;
  alpha <- read G.alpha2 ;;
  ret (ltb p'' alpha).

Fixpoint for_range (ns : list Z) : M loop_exit :=
  match ns with
  | [] => ret Ran_out
  | k :: rest =>
      b <- body k ;;
      if b then ret Broke else for_range rest
  end.

(** The loop with the literals of [range(20, 10000, 20)] as parameters:
    [for n in range(step, max_n, step): ...].  The population, its size,
    the null margin and the risk limit are the globals [pop], [N2], [c]
    and [alpha2]. *)
Definition search (step max_n : Z) : M loop_exit :=
  ns <- range step max_n step ;;
  for_range ns.

(** [np.array([0]*52500 + [1]*42500 + [np.nan]*5000)], a float array. *)
Definition pop_literal : list float64 :=
  py_repeat (of_int 0) 52500 ++ py_repeat (of_int 1) 42500
    ++ py_repeat nan 5000.

(** The last code cell:
<<
 np.random.seed(292018)
 pop = np.array([0]*52500 + [1]*42500 + [np.nan]*5000)
 c = (42500-52500) - lambda2*margin
 print("c= ", c)
 for n in range(20, 10000, 20):
     ...
>>
    In the third line [lambda2] and [margin] are read in this order, then
    [margin] is converted for the product. *)
Definition cell7 : M loop_exit :=
  np_random_seed 292018 ;;
  assign (G.set_pop pop_literal) ;;
  l2 <- read G.lambda2 ;;
  mg <- read G.margin ;;
  x <- float_of_int mg ;;
  assign (G.set_c (sub (of_int (42500 - 52500)) (mul l2 x))) ;;
  c' <- read G.c ;;
  print (Print_c c') ;;
  search 20 10000.

(** The seeding followed by the loop, for a population and a null margin
    that are already assigned. *)
Definition seeded_search (s step max_n : Z) : M loop_exit :=
  np_random_seed s ;;
  search step max_n.

(** A cell starts with an empty output area. *)
Definition start (v : G.t) (g : rstate) : machine := mk_machine v g [] [].

(** The second and the last code cell run in this order, from any
    namespace and any state of the generator left by earlier work.  (The
    two cells in between only display a value.) *)
Definition run_notebook (v : G.t) (g : rstate) : result loop_exit :=
  cell7 (start (G.cell2 v) g).

(** How a computation ended: with a value or with an exception. *)
Definition outcome {A} (r : result A) : exn + A :=
  match r with
  | Ok a _ => inr a
  | Raise e _ => inl e
  end.

(** The machine a computation ends in, normally or not. *)
Definition machine_of {A} (r : result A) : machine :=
  match r with
  | Ok _ m => m
  | Raise _ m => m
  end.

(** The pairs [(n, pvalue)] among the printed lines. *)
Fixpoint evaluated (out : list line) : list (Z * float64) :=
  match out with
  | [] => []
  | Print_c _ :: rest => evaluated rest
  | Print_n k p :: rest => (k, p) :: evaluated rest
  end.

(** What a computation may do to the machine: it leaves the fixed names
    alone, prints at most [i] lines and calls the oracle at most [j]
    times. *)
Definition modest (i j : nat) (m m' : machine) : Prop :=
  G.same_fixed (vars m) (vars m') /\
  exists lines calls,
    stdout m' = stdout m ++ lines /\
    oracle_log m' = oracle_log m ++ calls /\
    (length lines <= i)%nat /\ (length calls <= j)%nat.

Definition preserves {A} (i j : nat) (x : M A) : Prop :=
  forall m, modest i j m (machine_of (x m)).

(** What a reader of the output concludes: the loop stopped on a success
    exactly when the last printed pair has [pvalue < alpha]. *)
Definition verdict (out : list line) (alpha : float64) : loop_exit :=
  match rev (evaluated out) with
  | (_, p) :: _ => if ltb p alpha then Broke else Ran_out
  | [] => Ran_out
  end.

(** The passes of the loop over the sizes [ns] (none of them negative)
    from the generator state [g], for a non-empty population [a], a
    population size, a null margin and a risk limit: which passes happen,
    how the loop ends, and the generator's last state.  [for_range_unroll]
    below shows that the loop does just this. *)
Fixpoint unroll (a : list float64) (popsize : Z) (null_margin alpha : float64)
  (ns : list Z) (g : rstate) : list iteration * loop_exit * rstate :=
  match ns with
  | [] => ([], Ran_out, g)
  | k :: rest =>
      let (s, g1) := draw a k g in
      let p := trihypergeometric_optim s popsize null_margin in
      if ltb p alpha then ([mk_it k s p], Broke, g1)
      else
        let '(its, ex, g2) := unroll a popsize null_margin alpha rest g1 in
        (mk_it k s p :: its, ex, g2)
  end.

(** The machine after the passes [its], the generator left in [g']. *)
Definition finish (m : machine) (popsize : Z) (null_margin : float64)
  (its : list iteration) (g' : rstate) : machine :=
  mk_machine (fold_left after its (vars m)) g'
    (stdout m ++ map line_of its)
    (oracle_log m ++ map (call_of popsize null_margin) its).

End Notebook.

Arguments Ok {RS A} a m.
Arguments Raise {RS A} e m.

(** The number of indices the generator has produced for the passes
    [its]: the sum of their sizes. *)
Definition drawn (its : list iteration) : nat :=
  list_sum (map (fun it => Z.to_nat (it_n it)) its).

(** ** The cells of the CVR stratum *)

(** A Python number as the notebook passes it to the estimator: the rates
    are written [0] in one cell and [0.001] in the other. *)
Inductive num : Type :=
| Int (z : Z)
| Float (x : float64).

Section Estimator.

Context {RS : RandomState}.

(** [findNmin_ballot_comparison_rates] is imported from the
    [ballot_comparison] module; the notebook only calls it.  It is a
    parameter, with the arguments in the order the cells write them:
    [alpha], [gamma], [r1], [s1], [r2], [s2], [reported_margin], [N],
    [null_lambda]. *)
Variable findNmin_ballot_comparison_rates :
  float64 -> float64 -> num -> num -> num -> num -> Z -> Z -> float64 -> float64.

Notation "x <- a ;; b" := (bind a (fun x => b))
  (at level 61, a at next level, right associativity).




End Estimator.

(** ** Stand-ins for the two external collaborators

    A linear congruential generator and two simple oracles: enough to run
    the loop on concrete inputs. *)

Module Stub.

Definition lcg_next (s : Z) : Z := (1103515245 * s + 12345) mod 2147483648.

Lemma lcg_range (high s : Z) :
  0 < high -> 0 <= fst (s mod high, lcg_next s) < high.
Proof. intro Hh. simpl. apply Z.mod_pos_bound. exact Hh. Qed.

#[export] Instance lcg : RandomState := {|
  rstate := Z;
  seed := fun s => s mod 2147483648;
  randint := fun high s => (s mod high, lcg_next s);
  randint_range := lcg_range
|}.

(** An oracle that answers the same p-value whatever it is asked. *)
Definition constant (p : float64) : list float64 -> Z -> float64 -> float64 :=
  fun _ _ _ => p.

(** An oracle whose answer depends on the sample size only: [1/len(sample)]. *)
Definition reciprocal : list float64 -> Z -> float64 -> float64 :=
  fun s _ _ => div one (of_int (Z.of_nat (length s))).

(** A population of three ballots, one of each kind. *)
Definition three : list float64 := [of_int 0; of_int 1; nan].

Definition inputs (a : list float64) (popsize : Z) (null_margin alpha : float64)
  : G.t :=
  G.mk None None None (Some alpha) None None (Some popsize)
       (Some a) (Some null_margin) None None None.

(** The machine at the start of a cell, the three ballots as population,
    their number as [N2], [-1] as null margin, and a given risk limit. *)
Definition tiny (alpha : float64) : machine :=
  start (inputs three 3 (of_int (-1)) alpha) 1.

(** The same inputs on a machine that has been used: leftovers in [n] and
    [pval], earlier output and another generator state. *)
Definition used (alpha : float64) : machine :=
  mk_machine (RS := lcg)
    (G.set_pval one (G.set_n 7 (inputs three 3 (of_int (-1)) alpha)))
    12345 [Print_c zero] [].

(** The same with a population without ballots. *)
Definition nobody (alpha : float64) : machine :=
  start (inputs [] 0 (of_int (-1)) alpha) 1.

(** A namespace with [lambda2 = 0.1] and a margin of [2**1024], which no
    float holds; nothing else is bound. *)
Definition huge_margin : G.t :=
  G.mk None (Some (decimal 1 10)) None None (Some (2 ^ 1024)) None None
       None None None None None.

(** An estimator that answers 40 whatever it is asked. *)
Definition forty :
  float64 -> float64 -> num -> num -> num -> num -> Z -> Z -> float64 -> float64 :=
  fun _ _ _ _ _ _ _ _ _ => of_int 40.

End Stub.

(** ** Runs on small inputs *)

Example range_20_101 : py_range 20 101 20 = [20; 40; 60; 80; 100].
Proof. reflexivity. Qed.

Example range_20_100 : py_range 20 100 20 = [20; 40; 60; 80].
Proof. reflexivity. Qed.

Example range_down : py_range 5 (-4) (-3) = [5; 2; -1].
Proof. reflexivity. Qed.

Example range_empty : py_range 20 20 20 = [].
Proof. reflexivity. Qed.

Example range_notebook :
  length (py_range 20 10000 20) = 499%nat /\
  nth 0 (py_range 20 10000 20) 0 = 20 /\
  nth 498 (py_range 20 10000 20) 0 = 9980.
Proof. vm_compute. repeat split. Qed.

(** [1/20] is not below the risk limit [1/20], [1/40] is: the search
    stops at 40. *)
Example run_stops_at_40 :
  outcome (search Stub.reciprocal 20 100 (Stub.tiny (decimal 1 20)))
    = inr Broke /\
  evaluated (stdout (machine_of
     (search Stub.reciprocal 20 100 (Stub.tiny (decimal 1 20)))))
    = [(20, decimal 1 20); (40, decimal 1 40)] /\
  G.n (vars (machine_of
     (search Stub.reciprocal 20 100 (Stub.tiny (decimal 1 20)))))
    = Some 40.
Proof. split; [ | split ]; vm_compute; reflexivity. Qed.

(** An oracle that answers NaN never stops the loop. *)
Example run_with_nan :
  outcome (search (Stub.constant nan) 20 100 (Stub.tiny (decimal 1 20)))
    = inr Ran_out /\
  map fst (evaluated (stdout (machine_of
     (search (Stub.constant nan) 20 100 (Stub.tiny (decimal 1 20))))))
    = [20; 40; 60; 80].
Proof. split; vm_compute; reflexivity. Qed.

(** A zero step is refused by [range], a negative size by the sampler. *)
Example run_zero_step :
  outcome (search Stub.reciprocal 0 100 (Stub.tiny (decimal 1 20)))
    = inl ValueError.
Proof. vm_compute. reflexivity. Qed.

Example run_negative_step :
  outcome (search Stub.reciprocal (-20) (-100) (Stub.tiny (decimal 1 20)))
    = inl ValueError.
Proof. vm_compute. reflexivity. Qed.

(** The largest int that converts to a float, and the first that does
    not: half an ulp above the largest float. *)
Example converts_edge :
  converts (2 ^ 1024 - 2 ^ 970 - 1) = true /\
  converts (2 ^ 1024 - 2 ^ 970) = false /\
  converts (- (2 ^ 1024 - 2 ^ 970)) = false /\
  converts 389000 = true.
Proof. vm_compute. repeat split. Qed.

(** A margin too large for a float stops the last cell at the product. *)
Example cell7_huge_margin :
  outcome (cell7 Stub.reciprocal (start (RS := Stub.lcg) Stub.huge_margin 0))
    = inl OverflowError.
Proof. vm_compute. reflexivity. Qed.

(** No sample from no ballots is the empty sample; one ballot from no
    ballots is refused. *)
Example choice_from_nothing :
  outcome (np_random_choice [] 0 (Stub.nobody zero)) = inr [] /\
  outcome (np_random_choice [] 1 (Stub.nobody zero)) = inl ValueError /\
  outcome (np_random_choice [] (-1) (Stub.nobody zero)) = inl ValueError /\
  outcome (np_random_choice Stub.three (-1) (Stub.tiny zero)) = inl ValueError.
Proof. vm_compute. repeat split. Qed.

(** Without the second cell the last cell stops at [lambda2]. *)
Example cell7_alone :
  outcome (cell7 Stub.reciprocal (start (RS := Stub.lcg) G.empty 0))
    = inl NameError.
Proof. vm_compute. reflexivity. Qed.

(** The floats of the second cell. *)
Example cell2_floats :
  G.lambda1 (G.cell2 G.empty) = Some (S754_finite false 8106479329266893 (-53)) /\
  G.lambda2 (G.cell2 G.empty) = Some (S754_finite false 7205759403792792 (-56)) /\
  G.alpha2 (G.cell2 G.empty) = Some (S754_finite false 5822253598264577 (-57)) /\
  decimal 1 10 = S754_finite false 7205759403792794 (-56).
Proof. vm_compute. repeat split. Qed.

(** ** Results *)

Lemma outcome_Ok {RS : RandomState} {A} (r : result A) (a : A) :
  outcome r = inr a -> r = Ok a (machine_of r).
Proof. destruct r; simpl; intro H; inversion H; reflexivity. Qed.

Lemma outcome_Raise {RS : RandomState} {A} (r : result A) (e : exn) :
  outcome r = inl e -> r = Raise e (machine_of r).
Proof. destruct r; simpl; intro H; inversion H; reflexivity. Qed.

(** ** Comparison of floats *)

Lemma compare_cont_opp (p q : positive) :
  PosDef.Pos.compare_cont Eq q p = CompOpp (PosDef.Pos.compare_cont Eq p q).
Proof. symmetry. exact (Pos.compare_cont_antisym p q Eq). Qed.

(** Swapping the sides of a comparison reverses its answer. *)
Lemma SFcompare_antisym (x y : float64) :
  SFcompare y x = option_map CompOpp (SFcompare x y).
Proof.
  destruct x as [sx | sx | | sx mx ex], y as [sy | sy | | sy my ey];
    simpl; try reflexivity;
    try (destruct sx; reflexivity); try (destruct sy; reflexivity);
    try (destruct sx, sy; reflexivity).
  destruct sx, sy; simpl; try reflexivity;
    rewrite (Z.compare_antisym ex ey), (compare_cont_opp mx my);
    destruct (ex ?= ey); simpl; try rewrite CompOpp_involutive; reflexivity.
Qed.

(** [alpha <= p] rules out [p < alpha]. *)
Lemma leb_not_ltb (alpha p : float64) :
  leb alpha p = true -> ltb p alpha = false.
Proof.
  unfold leb, ltb, SFleb, SFltb.
  rewrite (SFcompare_antisym alpha p).
  destruct (SFcompare alpha p) as [[ | | ] | ]; simpl; congruence.
Qed.

(** A NaN is below nothing: the test [pval < alpha2] fails on it. *)
Lemma ltb_nan_l (alpha : float64) : ltb nan alpha = false.
Proof. reflexivity. Qed.

Lemma ltb_nan_r (p : float64) : ltb p nan = false.
Proof. destruct p; reflexivity. Qed.

(** ** Python's [range], for a positive step *)

Section RangeFacts.

Variables start stop step : Z.
Hypothesis step_pos : 0 < step.

Lemma range_len_nonneg : 0 <= range_len start stop step.
Proof.
  unfold range_len.
  destruct (0 <? step) eqn:E; [ | apply Z.ltb_ge in E; lia ].
  destruct (start <? stop) eqn:F; [ | lia ].
  apply Z.ltb_lt in F.
  assert (0 <= (stop - start - 1) / step) by (apply Z.div_pos; lia).
  lia.
Qed.

Lemma py_range_length :
  Z.of_nat (length (py_range start stop step)) = range_len start stop step.
Proof.
  unfold py_range. rewrite length_map, length_seq.
  apply Z2Nat.id. apply range_len_nonneg.
Qed.

(** The elements are [start + i * step], for [i] below the length. *)
Lemma py_range_nth (i : nat) :
  (i < length (py_range start stop step))%nat ->
  nth i (py_range start stop step) 0 = start + Z.of_nat i * step.
Proof.
  intro Hi. unfold py_range in *.
  rewrite length_map, length_seq in Hi.
  rewrite (nth_indep _ 0 ((fun j => start + Z.of_nat j * step) O))
    by (rewrite length_map, length_seq; exact Hi).
  rewrite (map_nth (fun j => start + Z.of_nat j * step)).
  rewrite seq_nth by exact Hi. reflexivity.
Qed.

(** Membership: the multiples of [step] above [start], strictly below
    [stop]. *)
Lemma py_range_In (k : Z) :
  In k (py_range start stop step) <->
  start <= k < stop /\ (k - start) mod step = 0.
Proof.
  unfold py_range. rewrite in_map_iff. split.
  - intros [i [Hk Hi]]. apply in_seq in Hi.
    assert (Hlen : Z.of_nat i < range_len start stop step).
    { pose proof range_len_nonneg. lia. }
    unfold range_len in Hlen.
    destruct (0 <? step) eqn:E; [ | apply Z.ltb_ge in E; lia ].
    destruct (start <? stop) eqn:F; [ | lia ].
    apply Z.ltb_lt in F.
    assert (Hq : Z.of_nat i <= (stop - start - 1) / step) by lia.
    assert (Hm : step * ((stop - start - 1) / step) <= stop - start - 1)
      by (apply Z.mul_div_le; lia).
    subst k. split.
    + nia.
    + replace (start + Z.of_nat i * step - start) with (Z.of_nat i * step) by ring.
      apply Z.mod_mul. lia.
  - intros [[Hlo Hhi] Hmod].
    exists (Z.to_nat ((k - start) / step)).
    assert (Hq : 0 <= (k - start) / step) by (apply Z.div_pos; lia).
    assert (Hk : k - start = step * ((k - start) / step)).
    { apply Z.div_exact; lia. }
    split.
    + rewrite Z2Nat.id by exact Hq. lia.
    + apply in_seq. split; [ lia | ].
      unfold range_len.
      destruct (0 <? step) eqn:E; [ | apply Z.ltb_ge in E; lia ].
      destruct (start <? stop) eqn:F; [ | apply Z.ltb_ge in F; lia ].
      assert ((k - start) / step <= (stop - start - 1) / step)
        by (apply Z.div_le_mono; lia).
      assert (0 <= (stop - start - 1) / step) by (apply Z.div_pos; lia).
      lia.
Qed.

Lemma py_range_lower (k : Z) : In k (py_range start stop step) -> start <= k.
Proof. intro H. apply py_range_In in H. lia. Qed.

End RangeFacts.

(** [range(step, max_n, step)] never has more elements than
    [ceil(max_n / step)]. *)
Lemma search_range_len (step max_n : Z) :
  0 < step -> 0 <= max_n ->
  range_len step max_n step <= ceil_div max_n step.
Proof.
  intros Hs Hm. unfold range_len, ceil_div.
  destruct (0 <? step) eqn:E; [ | apply Z.ltb_ge in E; lia ].
  assert (Hc : 0 <= - ((- max_n) / step)).
  { assert ((- max_n) / step <= 0 / step) by (apply Z.div_le_mono; lia).
    rewrite Z.div_0_l in H by lia. lia. }
  destruct (step <? max_n) eqn:F; [ | exact Hc ].
  apply Z.ltb_lt in F.
  replace (max_n - step - 1) with ((max_n - 1) + (-1) * step) by ring.
  rewrite Z.div_add by lia.
  assert ((max_n - 1) / step < - ((- max_n) / step)); [ | lia ].
  apply Z.div_lt_upper_bound; [ lia | ].
  pose proof (Z.mul_div_le (- max_n) step Hs). lia.
Qed.

(** ** Sampling *)

Section Sampling.

Context {RS : RandomState}.

Lemma randint_array_length (high : Z) (k : nat) (s : rstate) :
  length (fst (randint_array high k s)) = k.
Proof.
  revert s. induction k as [ | k IH]; intro s; simpl.
  - reflexivity.
  - destruct (randint high s) as [i s1].
    specialize (IH s1). destruct (randint_array high k s1) as [rest s2].
    simpl in *. congruence.
Qed.

Lemma randint_array_range (high : Z) (k : nat) (s : rstate) :
  0 < high -> Forall (fun i => 0 <= i < high) (fst (randint_array high k s)).
Proof.
  intro Hh. revert s. induction k as [ | k IH]; intro s; simpl.
  - constructor.
  - pose proof (randint_range high s Hh) as Hi.
    destruct (randint high s) as [i s1].
    specialize (IH s1). destruct (randint_array high k s1) as [rest s2].
    simpl in *. constructor; assumption.
Qed.

(** A sample has exactly as many values as were asked for. *)
Lemma draw_length (a : list float64) (size : Z) (g : rstate) :
  length (fst (draw a size g)) = Z.to_nat size.
Proof.
  unfold draw.
  pose proof (randint_array_length (Z.of_nat (length a)) (Z.to_nat size) g) as H.
  destruct (randint_array (Z.of_nat (length a)) (Z.to_nat size) g) as [idx g'].
  simpl in *. rewrite length_map. exact H.
Qed.

(** Every value of a sample is a ballot of the population. *)
Lemma draw_incl (a : list float64) (size : Z) (g : rstate) :
  a <> [] -> incl (fst (draw a size g)) a.
Proof.
  intro Ha. unfold draw.
  assert (Hlen : 0 < Z.of_nat (length a)).
  { destruct a; [ congruence | simpl; lia ]. }
  pose proof (randint_array_range (Z.of_nat (length a)) (Z.to_nat size) g Hlen) as H.
  destruct (randint_array (Z.of_nat (length a)) (Z.to_nat size) g) as [idx g'].
  simpl in *. intros x Hx. apply in_map_iff in Hx.
  destruct Hx as [i [Hi Hin]]. subst x.
  rewrite Forall_forall in H. specialize (H i Hin).
  unfold take_at. apply nth_In. lia.
Qed.

End Sampling.

(** ** The loop, pass by pass *)

(** Unfolds the monad's operations in the goal. *)
Ltac m_simpl :=
  cbn [vars gen stdout oracle_log G.set_n G.set_sample G.set_pval G.set_pop
       G.set_c G.lambda1 G.lambda2 G.alpha1 G.alpha2 G.margin G.N1 G.N2
       G.pop G.c G.n G.sample G.pval].

Ltac run_m :=
  unfold body, search, range, call_oracle, np_random_choice,
    np_random_seed, print, assign, read, bind, ret, raise;
  m_simpl.

Section Loop.

Context {RS : RandomState}.
Variable oracle : list float64 -> Z -> float64 -> float64.


Section Pass.

Variables (a : list float64) (popsize : Z) (null_margin alpha : float64).
Variable m : machine.
Hypothesis pop_bound : G.pop (vars m) = Some a.
Hypothesis pop_nonempty : a <> [].
Hypothesis N2_bound : G.N2 (vars m) = Some popsize.
Hypothesis c_bound : G.c (vars m) = Some null_margin.
Hypothesis alpha2_bound : G.alpha2 (vars m) = Some alpha.

(** One pass, for a non-negative element of the range: the sample is
    drawn, the oracle is called once, one line is printed, and the answer
    is whether the p-value is below [alpha2]. *)
Lemma body_ok (k : Z) :
  0 <= k ->
  body oracle k m =
    let (s, g1) := draw a k (gen m) in
    let it := mk_it k s (oracle s popsize null_margin) in
    Ok (ltb (it_pval it) alpha) (finish m popsize null_margin [it] g1).
Proof.
  intro Hk. run_m. rewrite pop_bound.
  destruct a as [ | x a'] eqn:Ea; [ congruence | ].
  assert (Hlt : (k <? 0) = false) by (apply Z.ltb_ge; exact Hk).
  m_simpl. rewrite Hlt.
  destruct (draw (x :: a') k (gen m)) as [s g1]. m_simpl.
  rewrite N2_bound. m_simpl. rewrite c_bound. m_simpl.
  rewrite alpha2_bound. reflexivity.
Qed.

End Pass.

(** The loop does what [unroll] says. *)
Lemma for_range_unroll (a : list float64) (popsize : Z)
  (null_margin alpha : float64) (ns : list Z) :
  a <> [] -> Forall (fun k => 0 <= k) ns ->
  forall m,
    G.pop (vars m) = Some a -> G.N2 (vars m) = Some popsize ->
    G.c (vars m) = Some null_margin -> G.alpha2 (vars m) = Some alpha ->
    for_range oracle ns m =
      let '(its, ex, g') := unroll oracle a popsize null_margin alpha ns (gen m) in
      Ok ex (finish m popsize null_margin its g').
Proof.
  intros Ha Hns. induction Hns as [ | k rest Hk Hrest IH]; intros m Hp HN Hc Hal.
  - simpl. unfold ret, finish. simpl.
    rewrite !app_nil_r. destruct m; reflexivity.
  - simpl. unfold bind at 1.
    rewrite (body_ok a popsize null_margin alpha m Hp Ha HN Hc Hal k Hk).
    destruct (draw a k (gen m)) as [s g1]. simpl.
    destruct (ltb (oracle s popsize null_margin) alpha) eqn:Hlt.
    + reflexivity.
    + rewrite IH by assumption. simpl.
      destruct (unroll oracle a popsize null_margin alpha rest g1) as [[its ex] g2].
      unfold finish. simpl. rewrite <- !app_assoc. reflexivity.
Qed.

End Loop.

(** ** What the passes look like *)

Section Passes.

Context {RS : RandomState}.
Variable oracle : list float64 -> Z -> float64 -> float64.
Variables (a : list float64) (popsize : Z) (null_margin alpha : float64).

(** Induction along the passes of [unroll]. *)
Lemma unroll_ind
  (P : list Z -> rstate -> list iteration -> loop_exit -> rstate -> Prop) :
  (forall g, P [] g [] Ran_out g) ->
  (forall k rest g s g1,
      draw a k g = (s, g1) ->
      ltb (oracle s popsize null_margin) alpha = true ->
      P (k :: rest) g [mk_it k s (oracle s popsize null_margin)] Broke g1) ->
  (forall k rest g s g1 its ex g2,
      draw a k g = (s, g1) ->
      ltb (oracle s popsize null_margin) alpha = false ->
      unroll oracle a popsize null_margin alpha rest g1 = (its, ex, g2) ->
      P rest g1 its ex g2 ->
      P (k :: rest) g (mk_it k s (oracle s popsize null_margin) :: its) ex g2) ->
  forall ns g its ex g',
    unroll oracle a popsize null_margin alpha ns g = (its, ex, g') ->
    P ns g its ex g'.
Proof.
  intros Hnil Hhit Hmiss ns.
  induction ns as [ | k rest IH]; intros g its ex g' H; simpl in H.
  - inversion H; subst. apply Hnil.
  - destruct (draw a k g) as [s g1] eqn:Ed.
    destruct (ltb (oracle s popsize null_margin) alpha) eqn:El.
    + inversion H; subst. apply Hhit; assumption.
    + destruct (unroll oracle a popsize null_margin alpha rest g1)
        as [[its1 ex1] g2] eqn:Eu.
      inversion H; subst. eapply Hmiss; eauto.
Qed.

Variables (ns : list Z) (g : rstate).
Variables (its : list iteration) (ex : loop_exit) (g' : rstate).
Hypothesis run : unroll oracle a popsize null_margin alpha ns g = (its, ex, g').

(** The sizes evaluated are an initial segment of the range. *)
Lemma unroll_sizes : map it_n its = firstn (length its) ns.
Proof.
  revert run. revert ns g its ex g'.
  apply unroll_ind;
    [ intros g0
    | intros k rest g0 s g1 Hd Hl
    | intros k rest g0 s g1 its0 ex0 g2 Hd Hl Hu IH ].
  - reflexivity.
  - reflexivity.
  - simpl. f_equal. assumption.
Qed.

Lemma unroll_length : (length its <= length ns)%nat.
Proof.
  pose proof unroll_sizes as H. apply (f_equal (@length Z)) in H.
  rewrite length_map, length_firstn in H. lia.
Qed.

(** Each pass holds a sample of [n] values and the oracle's answer on it. *)
Lemma unroll_passes :
  Forall (fun it =>
            it_pval it = oracle (it_sample it) popsize null_margin /\
            length (it_sample it) = Z.to_nat (it_n it) /\
            (a <> [] -> incl (it_sample it) a)) its.
Proof.
  revert run. revert ns g its ex g'.
  apply unroll_ind;
    [ intros g0
    | intros k rest g0 s g1 Hd Hl
    | intros k rest g0 s g1 its0 ex0 g2 Hd Hl Hu IH ].
  - constructor.
  - constructor; [ | constructor ]. simpl.
    pose proof (draw_length a k g0) as Hlen.
    pose proof (draw_incl a k g0) as Hi.
    rewrite Hd in Hlen, Hi. simpl in Hlen, Hi. auto.
  - constructor; [ | assumption ]. simpl.
    pose proof (draw_length a k g0) as Hlen.
    pose proof (draw_incl a k g0) as Hi.
    rewrite Hd in Hlen, Hi. simpl in Hlen, Hi. auto.
Qed.

(** The loop ends at the first pass with [pval < alpha2], and runs through
    the whole range when there is none. *)
Lemma unroll_shape :
  match ex with
  | Broke =>
      exists pre it,
        its = pre ++ [it] /\ Forall (miss alpha) pre /\ ltb (it_pval it) alpha = true
  | Ran_out => Forall (miss alpha) its /\ map it_n its = ns
  end.
Proof.
  revert run. revert ns g its ex g'.
  apply unroll_ind;
    [ intros g0
    | intros k rest g0 s g1 Hd Hl
    | intros k rest g0 s g1 its0 ex0 g2 Hd Hl Hu IH ].
  - split; constructor.
  - exists [], (mk_it k s (oracle s popsize null_margin)).
    repeat split; [ constructor | assumption ].
  - destruct ex0.
    + destruct IH as [pre [it [Hits [Hpre Hit]]]].
      exists (mk_it k s (oracle s popsize null_margin) :: pre), it.
      subst its0. repeat split; [ constructor; assumption | assumption ].
    + destruct IH as [Hall Hns]. split.
      * constructor; assumption.
      * simpl. f_equal. assumption.
Qed.

Lemma unroll_nonempty : ns <> [] -> its <> [].
Proof.
  revert run. revert ns g its ex g'.
  apply (unroll_ind (fun ns _ its _ _ => ns <> [] -> its <> []));
    intros; congruence.
Qed.

(** No pass but the last can have [pval < alpha2]. *)
Lemma unroll_misses : Forall (miss alpha) (removelast its).
Proof.
  pose proof unroll_shape as H. destruct ex.
  - destruct H as [pre [it [Hits [Hpre _]]]]. subst its.
    rewrite removelast_last. exact Hpre.
  - destruct H as [Hall _]. clear run.
    induction Hall as [ | it l Hit Hl IH]; simpl.
    + constructor.
    + destruct l; [ constructor | ]. constructor; assumption.
Qed.

(** After a pass that misses, the next element of the range is evaluated. *)
Lemma unroll_continues (i : nat) (it : iteration) :
  nth_error its i = Some it -> miss alpha it -> (S i < length ns)%nat ->
  exists it', nth_error its (S i) = Some it' /\ it_n it' = nth (S i) ns 0.
Proof.
  intros Hi Hmiss Hlen.
  assert (Hlt : (S i < length its)%nat).
  { pose proof unroll_shape as H. destruct ex.
    - destruct H as [pre [last_it [Hits [_ Hhit]]]]. subst its.
      rewrite length_app. simpl.
      assert (i < length pre)%nat; [ | lia ].
      destruct (Nat.lt_ge_cases i (length pre)) as [ | Hge]; [ assumption | ].
      assert (Hin : (i < length (pre ++ [last_it]))%nat)
        by (apply nth_error_Some; congruence).
      rewrite length_app in Hin. simpl in Hin.
      assert (i = length pre) by lia. subst i.
      rewrite nth_error_app2, Nat.sub_diag in Hi by lia. simpl in Hi.
      inversion Hi; subst. unfold miss in Hmiss. congruence.
    - destruct H as [_ Hns]. apply (f_equal (@length Z)) in Hns.
      rewrite length_map in Hns. lia. }
  destruct (nth_error its (S i)) as [it' | ] eqn:E.
  - exists it'. split; [ reflexivity | ].
    pose proof unroll_sizes as Hs.
    assert (Hn : nth (S i) (map it_n its) 0 = it_n it').
    { rewrite (nth_indep _ 0 (it_n it')) by (rewrite length_map; exact Hlt).
      rewrite map_nth. f_equal. apply nth_error_nth. exact E. }
    rewrite <- Hn, Hs.
    rewrite <- (firstn_skipn (length its) ns) at 2.
    rewrite app_nth1; [ reflexivity | ].
    rewrite length_firstn. lia.
  - apply nth_error_None in E. lia.
Qed.

(** The verdict read off the printed lines is the way the loop ended. *)
Lemma unroll_verdict (out : list line) :
  evaluated out = [] -> verdict (out ++ map line_of its) alpha = ex.
Proof.
  intro Hout.
  assert (He : forall l, evaluated (out ++ map line_of l)
                         = map (fun it => (it_n it, it_pval it)) l).
  { intro l. induction out as [ | x out' IH]; simpl.
    - induction l as [ | it l IHl]; simpl; [ reflexivity | f_equal; exact IHl ].
    - destruct x; simpl in Hout; [ apply IH; exact Hout | discriminate ]. }
  unfold verdict. rewrite He.
  pose proof unroll_shape as H. destruct ex.
  - destruct H as [pre [it [Hits [_ Hhit]]]]. subst its.
    rewrite map_app, rev_app_distr. simpl. rewrite Hhit. reflexivity.
  - destruct H as [Hall _].
    destruct (rev (map (fun it => (it_n it, it_pval it)) its))
      as [ | [k p] l] eqn:E; [ reflexivity | ].
    assert (Hin : In (k, p) (map (fun it => (it_n it, it_pval it)) its)).
    { apply in_rev. rewrite E. left. reflexivity. }
    apply in_map_iff in Hin. destruct Hin as [it [Heq Hin]].
    rewrite Forall_forall in Hall. specialize (Hall it Hin).
    inversion Heq; subst. unfold miss in Hall. rewrite Hall. reflexivity.
Qed.

End Passes.

(** ** Names the loop leaves alone *)

Lemma same_fixed_refl (v : G.t) : G.same_fixed v v.
Proof. unfold G.same_fixed. repeat split. Qed.

Lemma same_fixed_trans (u v w : G.t) :
  G.same_fixed u v -> G.same_fixed v w -> G.same_fixed u w.
Proof.
  unfold G.same_fixed. intros H1 H2.
  repeat match goal with H : _ /\ _ |- _ => destruct H end.
  repeat split; congruence.
Qed.

Lemma after_fixed (v : G.t) (it : iteration) : G.same_fixed v (after v it).
Proof. unfold G.same_fixed. repeat split. Qed.

Lemma fold_after_fixed (its : list iteration) (v : G.t) :
  G.same_fixed v (fold_left after its v).
Proof.
  revert v. induction its as [ | it its IH]; intro v; simpl.
  - apply same_fixed_refl.
  - eapply same_fixed_trans; [ apply after_fixed | apply IH ].
Qed.

(** After the loop, [n], [sample] and [pval] hold the last pass. *)
Lemma fold_after_last (pre : list iteration) (it : iteration) (v : G.t) :
  let w := fold_left after (pre ++ [it]) v in
  G.n w = Some (it_n it) /\ G.sample w = Some (it_sample it) /\
  G.pval w = Some (it_pval it).
Proof. simpl. rewrite fold_left_app. simpl. repeat split. Qed.

Section Effects.

Context {RS : RandomState}.
Variable oracle : list float64 -> Z -> float64 -> float64.

Lemma modest_refl (m : machine) : modest 0 0 m m.
Proof.
  split; [ apply same_fixed_refl | ].
  exists [], []. rewrite !app_nil_r. repeat split; simpl; lia.
Qed.

Lemma modest_trans (i j i' j' : nat) (m1 m2 m3 : machine) :
  modest i j m1 m2 -> modest i' j' m2 m3 -> modest (i + i') (j + j') m1 m3.
Proof.
  intros [F1 [l1 [c1 [Ho1 [Hl1 [He1 Hb1]]]]]] [F2 [l2 [c2 [Ho2 [Hl2 [He2 Hb2]]]]]].
  split; [ eapply same_fixed_trans; eassumption | ].
  exists (l1 ++ l2), (c1 ++ c2).
  rewrite Ho2, Ho1, Hl2, Hl1, <- !app_assoc, !length_app.
  repeat split; lia.
Qed.

Lemma modest_weaken (i j i' j' : nat) (m m' : machine) :
  (i <= i')%nat -> (j <= j')%nat -> modest i j m m' -> modest i' j' m m'.
Proof.
  intros Hi Hj [F [l [c [Ho [Hl [He Hb]]]]]].
  split; [ exact F | ]. exists l, c. repeat split; try assumption; lia.
Qed.

Lemma preserves_weaken {A} (i j i' j' : nat) (x : M A) :
  preserves i j x -> (i <= i')%nat -> (j <= j')%nat -> preserves i' j' x.
Proof. intros H Hi Hj m. eapply modest_weaken; eauto. Qed.

Lemma bind_preserves {A B} (i j i' j' : nat) (x : M A) (f : A -> M B) :
  preserves i j x -> (forall a, preserves i' j' (f a)) ->
  preserves (i + i') (j + j') (bind x f).
Proof.
  intros Hx Hf m. unfold bind. specialize (Hx m).
  destruct (x m) as [a m1 | e m1]; simpl in *.
  - eapply modest_trans; [ exact Hx | apply Hf ].
  - eapply modest_weaken; [ | | exact Hx ]; lia.
Qed.

Lemma ret_preserves {A} (a : A) : preserves 0 0 (ret a).
Proof. intro m. apply modest_refl. Qed.

Lemma raise_preserves {A} (e : exn) : preserves 0 0 (@raise RS A e).
Proof. intro m. apply modest_refl. Qed.

Lemma read_preserves {A} (f : G.t -> option A) : preserves 0 0 (read f).
Proof. intro m. unfold read. destruct (f (vars m)); apply modest_refl. Qed.

Lemma assign_preserves (upd : G.t -> G.t) :
  (forall v, G.same_fixed v (upd v)) -> preserves 0 0 (assign upd).
Proof.
  intros H m. split; [ apply H | ].
  exists [], []. simpl. rewrite !app_nil_r. repeat split; lia.
Qed.

Lemma print_preserves (l : line) : preserves 1 0 (print l).
Proof.
  intro m. split; [ apply same_fixed_refl | ].
  exists [l], []. simpl. rewrite app_nil_r. repeat split; lia.
Qed.

Lemma call_oracle_preserves (s : list float64) (popsize : Z) (c : float64) :
  preserves 0 1 (call_oracle oracle s popsize c).
Proof.
  intro m. split; [ apply same_fixed_refl | ].
  exists [], [mk_call s popsize c]. simpl. rewrite app_nil_r.
  repeat split; lia.
Qed.

Lemma np_random_choice_preserves (a : list float64) (size : Z) :
  preserves 0 0 (np_random_choice a size).
Proof.
  intro m. unfold np_random_choice.
  destruct a; [ destruct (size =? 0); apply modest_refl | ].
  destruct (size <? 0); [ apply modest_refl | ].
  destruct (draw (f :: a) size (gen m)) as [s g']. simpl.
  split; [ apply same_fixed_refl | ].
  exists [], []. simpl. rewrite !app_nil_r. repeat split; lia.
Qed.

Lemma np_random_seed_preserves (s : Z) : preserves 0 0 (np_random_seed s).
Proof.
  intro m. split; [ apply same_fixed_refl | ].
  exists [], []. simpl. rewrite !app_nil_r. repeat split; lia.
Qed.

(** Steps through a sequence of binds. *)
Ltac preserves_steps :=
  repeat first
    [ apply ret_preserves
    | apply raise_preserves
    | apply read_preserves
    | apply print_preserves
    | apply call_oracle_preserves
    | apply np_random_choice_preserves
    | apply np_random_seed_preserves
    | apply assign_preserves; intro; unfold G.same_fixed; repeat split
    | eapply bind_preserves; [ | intro ] ].

(** One pass, whether it completes or raises: one line and one call at
    most, and no assignment outside [n], [sample] and [pval]. *)
Lemma body_preserves (k : Z) : preserves 1 1 (body oracle k).
Proof.
  eapply preserves_weaken; [ unfold body; preserves_steps | simpl; lia .. ].
Qed.

Lemma for_range_preserves (ns : list Z) :
  preserves (length ns) (length ns) (for_range oracle ns).
Proof.
  induction ns as [ | k rest IH]; simpl.
  - apply ret_preserves.
  - apply (bind_preserves 1 1 (length rest) (length rest)).
    + apply body_preserves.
    + intros [ | ]; [ | exact IH ].
      eapply preserves_weaken; [ apply ret_preserves | lia .. ].
Qed.

Lemma search_preserves (step max_n : Z) :
  preserves (length (py_range step max_n step))
            (length (py_range step max_n step)) (search oracle step max_n).
Proof.
  unfold search, range.
  destruct (step =? 0).
  - intro m. unfold bind, raise. simpl.
    eapply modest_weaken; [ | | apply modest_refl ]; lia.
  - intro m. unfold bind, ret. apply for_range_preserves.
Qed.

End Effects.

(** ** The search and the cell, unrolled *)

Lemma evaluated_app (x y : list line) :
  evaluated (x ++ y) = evaluated x ++ evaluated y.
Proof.
  induction x as [ | l x IH]; simpl; [ reflexivity | ].
  destruct l; simpl; rewrite IH; reflexivity.
Qed.

Lemma evaluated_line_of (its : list iteration) :
  evaluated (map line_of its) = map (fun it => (it_n it, it_pval it)) its.
Proof.
  induction its as [ | it its IH]; simpl; [ reflexivity | ].
  rewrite IH. reflexivity.
Qed.

Lemma sizes_line_of (its : list iteration) :
  map fst (evaluated (map line_of its)) = map it_n its.
Proof. rewrite evaluated_line_of, map_map. reflexivity. Qed.

Lemma pop_literal_nonempty : pop_literal <> [].
Proof.
  intro H. apply (f_equal (@length float64)) in H.
  unfold pop_literal, py_repeat in H.
  rewrite !length_app, !repeat_length in H. simpl length in H. lia.
Qed.

Lemma pop_literal_length : Z.of_nat (length pop_literal) = 100000.
Proof.
  unfold pop_literal, py_repeat.
  rewrite !length_app, !repeat_length. lia.
Qed.

(** The sizes [range(20, 10000, 20)] runs through. *)
Lemma candidates_explicit :
  py_range 20 10000 20 = map (fun i => 20 * Z.of_nat i) (seq 1 499).
Proof. vm_compute. reflexivity. Qed.

Lemma candidates_In (k : Z) :
  In k (py_range 20 10000 20) <-> 20 <= k < 10000 /\ k mod 20 = 0.
Proof.
  rewrite py_range_In by lia.
  replace (k - 20) with (k + (-1) * 20) by ring.
  rewrite Z.mod_add by lia. reflexivity.
Qed.

Section Unrolled.

Context {RS : RandomState}.
Variable oracle : list float64 -> Z -> float64 -> float64.

Lemma search_unroll (a : list float64) (popsize : Z)
  (null_margin alpha : float64) (step max_n : Z) (m : machine) :
  0 < step -> a <> [] ->
  G.pop (vars m) = Some a -> G.N2 (vars m) = Some popsize ->
  G.c (vars m) = Some null_margin -> G.alpha2 (vars m) = Some alpha ->
  search oracle step max_n m =
    let '(its, ex, g') :=
      unroll oracle a popsize null_margin alpha
             (py_range step max_n step) (gen m) in
    Ok ex (finish m popsize null_margin its g').
Proof.
  intros Hs Ha Hp HN Hc Hal. unfold search, range, bind.
  assert (E : (step =? 0) = false) by (apply Z.eqb_neq; lia).
  rewrite E. unfold ret.
  apply for_range_unroll; try assumption.
  apply Forall_forall. intros k Hk.
  apply py_range_lower in Hk; lia.
Qed.

(** The cell, for a namespace in which the second cell's names are bound
    and the margin converts to a float. *)
Lemma cell7_unroll (m : machine) (l2 : float64) (mg popsize : Z)
  (alpha : float64) :
  G.lambda2 (vars m) = Some l2 -> G.margin (vars m) = Some mg ->
  converts mg = true ->
  G.N2 (vars m) = Some popsize -> G.alpha2 (vars m) = Some alpha ->
  cell7 oracle m =
    let c0 := null_margin_expr l2 mg in
    let m1 :=
      mk_machine (G.set_c c0 (G.set_pop pop_literal (vars m)))
                 (seed 292018) (stdout m ++ [Print_c c0]) (oracle_log m) in
    let '(its, ex, g') :=
      unroll oracle pop_literal popsize c0 alpha (py_range 20 10000 20)
             (seed 292018) in
    Ok ex (finish m1 popsize c0 its g').
Proof.
  intros Hl2 Hmg Hcv HN Hal.
  unfold cell7, float_of_int, np_random_seed, assign, read, print, bind.
  m_simpl. rewrite Hl2. m_simpl. rewrite Hmg, Hcv. unfold ret. m_simpl.
  fold (null_margin_expr l2 mg).
  apply (search_unroll pop_literal popsize (null_margin_expr l2 mg) alpha);
    [ lia | apply pop_literal_nonempty | .. ];
    m_simpl; first [ reflexivity | assumption ].
Qed.

(** The cell is the seeded search on the machine in which [pop] and [c]
    are assigned and [c] is printed. *)
Lemma cell7_is_seeded_search (m : machine) (l2 : float64) (mg : Z) :
  G.lambda2 (vars m) = Some l2 -> G.margin (vars m) = Some mg ->
  converts mg = true ->
  cell7 oracle m =
    seeded_search oracle 292018 20 10000
      (mk_machine
         (G.set_c (null_margin_expr l2 mg) (G.set_pop pop_literal (vars m)))
         (gen m) (stdout m ++ [Print_c (null_margin_expr l2 mg)])
         (oracle_log m)).
Proof.
  intros Hl2 Hmg Hcv.
  unfold cell7, float_of_int, seeded_search, np_random_seed, assign, read,
    print, bind.
  m_simpl. rewrite Hl2. m_simpl. rewrite Hmg, Hcv. reflexivity.
Qed.

(** With an empty population the first sampling call raises: nothing has
    been printed, the oracle has not been called and the generator has not
    moved. *)
Lemma search_empty_pop (step max_n : Z) (m : machine) :
  0 < step -> step < max_n -> G.pop (vars m) = Some [] ->
  exists m',
    search oracle step max_n m = Raise ValueError m' /\
    stdout m' = stdout m /\ oracle_log m' = oracle_log m /\ gen m' = gen m.
Proof.
  intros Hs Hm Hp. unfold search, range, bind.
  assert (E : (step =? 0) = false) by (apply Z.eqb_neq; lia).
  rewrite E. unfold ret.
  assert (Hlen : 0 < range_len step max_n step).
  { unfold range_len.
    assert (E1 : (0 <? step) = true) by (apply Z.ltb_lt; lia).
    assert (E2 : (step <? max_n) = true) by (apply Z.ltb_lt; lia).
    rewrite E1, E2.
    assert (0 <= (max_n - step - 1) / step) by (apply Z.div_pos; lia). lia. }
  unfold py_range.
  destruct (Z.to_nat (range_len step max_n step)) as [ | len] eqn:El; [ lia | ].
  simpl. unfold bind at 1. run_m. rewrite Hp. m_simpl.
  match goal with
  | |- context [?k =? 0] =>
      assert (E0 : (k =? 0) = false) by (apply Z.eqb_neq; lia); rewrite E0
  end.
  eexists. split; [ reflexivity | ]. repeat split.
Qed.

(** An oracle that never answers below [alpha2] sends the loop through
    the whole range. *)
Lemma unroll_never (a : list float64) (popsize : Z)
  (null_margin alpha : float64) (ns : list Z) (g : rstate) :
  (forall s, ltb (oracle s popsize null_margin) alpha = false) ->
  exists its g',
    unroll oracle a popsize null_margin alpha ns g = (its, Ran_out, g') /\
    map it_n its = ns.
Proof.
  intro Hnever. revert g. induction ns as [ | k rest IH]; intro g; simpl.
  - exists [], g. split; reflexivity.
  - destruct (draw a k g) as [s g1]. rewrite Hnever.
    destruct (IH g1) as [its [g' [Hu Hn]]]. rewrite Hu.
    eexists. eexists. split; [ reflexivity | ]. simpl. f_equal. exact Hn.
Qed.

(** The position of a pass is the position of its size in the range. *)
Lemma unroll_nth (a : list float64) (popsize : Z)
  (null_margin alpha : float64) (ns : list Z) (g : rstate)
  (its : list iteration) (ex : loop_exit) (g' : rstate)
  (i : nat) (it : iteration) :
  unroll oracle a popsize null_margin alpha ns g = (its, ex, g') ->
  nth_error its i = Some it -> it_n it = nth i ns 0.
Proof.
  intros Hu Hi.
  pose proof (unroll_sizes oracle a popsize null_margin alpha ns g its ex g' Hu) as Hs.
  assert (Hlt : (i < length its)%nat) by (apply nth_error_Some; congruence).
  assert (Hn : nth i (map it_n its) 0 = it_n it).
  { rewrite (nth_indep _ 0 (it_n it)) by (rewrite length_map; exact Hlt).
    rewrite map_nth. f_equal. apply nth_error_nth. exact Hi. }
  rewrite <- Hn, Hs.
  rewrite <- (firstn_skipn (length its) ns) at 2.
  rewrite app_nth1; [ reflexivity | ].
  rewrite length_firstn.
  pose proof (unroll_length oracle a popsize null_margin alpha ns g its ex g' Hu).
  lia.
Qed.

End Unrolled.

(** ** The notebook's run *)

Section NotebookRun.

Context {RS : RandomState}.
Variable oracle : list float64 -> Z -> float64 -> float64.

Lemma sizes_finish (m : machine) (popsize : Z) (c0 : float64)
  (its : list iteration) (g' : rstate) :
  map fst (evaluated (stdout (finish m popsize c0 its g'))) =
  map fst (evaluated (stdout m)) ++ map it_n its.
Proof.
  unfold finish. cbn [stdout].
  rewrite evaluated_app, map_app, sizes_line_of. reflexivity.
Qed.

(** The two cells in a row: the loop runs over the literal population
    with [N2 = 100000], [alpha2 = 0.0404] and the null margin
    [c_notebook], the generator seeded with 292018; neither the namespace
    nor the generator state the run started from has a say. *)
Lemma run_notebook_passes (v : G.t) (g : rstate) :
  exists its ex g' m',
    unroll oracle pop_literal 100000 c_notebook (decimal 404 10000)
           (py_range 20 10000 20) (seed 292018) = (its, ex, g') /\
    run_notebook oracle v g = Ok ex m' /\
    vars m' = fold_left after its
                (G.set_c c_notebook (G.set_pop pop_literal (G.cell2 v))) /\
    gen m' = g' /\
    stdout m' = Print_c c_notebook :: map line_of its /\
    oracle_log m' = map (call_of 100000 c_notebook) its.
Proof.
  unfold run_notebook.
  rewrite (cell7_unroll oracle _ (sub (of_int 1) (decimal 9 10)) 389000
             100000 (decimal 404 10000)) by reflexivity.
  cbv zeta. fold c_notebook.
  destruct (unroll oracle pop_literal 100000 c_notebook (decimal 404 10000)
              (py_range 20 10000 20) (seed 292018)) as [[its ex] g'].
  exists its, ex, g'. eexists. split; [ reflexivity | ].
  split; [ reflexivity | ]. repeat split.
Qed.

End NotebookRun.

(** The null margin of the notebook, as a binary64 number. *)
Lemma c_notebook_bits : c_notebook = S754_finite true 6720764824780799 (-37).
Proof. vm_compute. reflexivity. Qed.

(** ** Further facts on the runs *)

Lemma run_keeps_c (its : list iteration) (v : G.t) (c0 : float64) :
  G.c (fold_left after its (G.set_c c0 v)) = Some c0.
Proof.
  pose proof (fold_after_fixed its (G.set_c c0 v)) as H.
  unfold G.same_fixed in H.
  repeat match goal with H : _ /\ _ |- _ => destruct H end.
  match goal with H : G.c _ = G.c _ |- _ => rewrite <- H end.
  reflexivity.
Qed.

Lemma candidates_nonempty : py_range 20 10000 20 <> [].
Proof. rewrite candidates_explicit. simpl. discriminate. Qed.

Section Seeded.

Context {RS : RandomState}.
Variable oracle : list float64 -> Z -> float64 -> float64.

(** After the seeding, the passes depend on the seed, on the inputs and
    on the range, and on nothing else of the machine. *)
Lemma seeded_search_passes (s step max_n : Z) (m : machine)
  (a : list float64) (popsize : Z) (null_margin alpha : float64) :
  0 < step -> a <> [] ->
  G.pop (vars m) = Some a -> G.N2 (vars m) = Some popsize ->
  G.c (vars m) = Some null_margin -> G.alpha2 (vars m) = Some alpha ->
  exists its ex g' m',
    unroll oracle a popsize null_margin alpha (py_range step max_n step)
           (seed s) = (its, ex, g') /\
    seeded_search oracle s step max_n m = Ok ex m' /\
    vars m' = fold_left after its (vars m) /\
    gen m' = g' /\
    stdout m' = stdout m ++ map line_of its /\
    oracle_log m' = oracle_log m ++ map (call_of popsize null_margin) its.
Proof.
  intros Hs Ha Hp HN Hc Hal.
  unfold seeded_search, np_random_seed, bind.
  rewrite (search_unroll oracle a popsize null_margin alpha) by assumption.
  cbn [gen].
  destruct (unroll oracle a popsize null_margin alpha
              (py_range step max_n step) (seed s)) as [[its ex] g'].
  exists its, ex, g'. eexists. split; [ reflexivity | ].
  split; [ reflexivity | ]. repeat split.
Qed.

End Seeded.

(** ** C1: the sizes the loop runs through *)

(** A run of the notebook in which no pass succeeds: the last size
    evaluated is 9980, and 10000 is not evaluated. *)
Lemma last_candidate_is_9980 :
  exists m',
    run_notebook (RS := Stub.lcg) (Stub.constant one) G.empty 0
      = Ok Ran_out m' /\
    last (map fst (evaluated (stdout m'))) 0 = 9980 /\
    (In 10000 (map fst (evaluated (stdout m'))) -> False).
Proof.
  destruct (run_notebook_passes (RS := Stub.lcg) (Stub.constant one) G.empty 0)
    as [its [ex [g' [m' [Hu [Hrun [_ [_ [Hout _]]]]]]]]].
  destruct (unroll_never (RS := Stub.lcg) (Stub.constant one) pop_literal 100000
              c_notebook (decimal 404 10000) (py_range 20 10000 20)
              (seed 292018))
    as [its0 [g0 [Hu0 Hn]]].
  { intro s. vm_compute. reflexivity. }
  rewrite Hu0 in Hu. inversion Hu; subst its0 ex g0.
  exists m'. split; [ exact Hrun | ].
  rewrite Hout. cbn [evaluated]. rewrite sizes_line_of, Hn.
  split.
  - vm_compute. reflexivity.
  - intro H. apply candidates_In in H. lia.
Qed.

(** C1 (amended): whatever the oracle answers, the notebook's loop evaluates
    an initial segment of 20, 40, ..., 9980, the multiples of 20 strictly
    below 10000 (499 sizes); when no pass succeeds it evaluates all of them,
    9980 being the last.  The bound 10000 of [range(20, 10000, 20)] is
    exclusive. *)
Theorem candidates_stop_below_10000 {RS : RandomState}
  (oracle : list float64 -> Z -> float64 -> float64) (v : G.t) (g : rstate) :
  exists ex m',
    run_notebook oracle v g = Ok ex m' /\
    map fst (evaluated (stdout m'))
      = firstn (length (evaluated (stdout m'))) (py_range 20 10000 20) /\
    (ex = Ran_out -> map fst (evaluated (stdout m')) = py_range 20 10000 20) /\
    py_range 20 10000 20 = map (fun i => 20 * Z.of_nat i) (seq 1 499) /\
    last (py_range 20 10000 20) 0 = 9980 /\
    (forall k, In k (py_range 20 10000 20) <-> 20 <= k < 10000 /\ k mod 20 = 0).
Proof.
  destruct (run_notebook_passes oracle v g)
    as [its [ex [g' [m' [Hu [Hrun [_ [_ [Hout _]]]]]]]]].
  exists ex, m'. split; [ exact Hrun | ].
  pose proof (unroll_sizes _ _ _ _ _ _ _ _ _ _ Hu) as Hs.
  pose proof (unroll_shape _ _ _ _ _ _ _ _ _ _ Hu) as Hsh.
  rewrite Hout. cbn [evaluated].
  rewrite sizes_line_of, evaluated_line_of, length_map.
  split; [ exact Hs | ].
  split; [ intro He; subst ex; apply Hsh | ].
  split; [ apply candidates_explicit | ].
  split; [ vm_compute; reflexivity | apply candidates_In ].
Qed.

(** ** C2: the loop stops at the first success *)

(** C2: for every oracle, the search ends at the first size whose p-value
    satisfies [pval < alpha2] and leaves that pair in [n] and [pval]; the
    sizes evaluated are an initial segment of the range, so no size beyond
    the first success is evaluated; no pass before the last one has
    [pval < alpha2]; and after a pass with [pval >= alpha2] the next size,
    [n + step], is evaluated as long as the range has one. *)
Theorem search_stops_at_first_success {RS : RandomState}
  (oracle : list float64 -> Z -> float64 -> float64)
  (step max_n : Z) (m : machine)
  (a : list float64) (popsize : Z) (null_margin alpha : float64) :
  0 < step -> a <> [] ->
  G.pop (vars m) = Some a -> G.N2 (vars m) = Some popsize ->
  G.c (vars m) = Some null_margin -> G.alpha2 (vars m) = Some alpha ->
  exists its ex g',
    search oracle step max_n m = Ok ex (finish m popsize null_margin its g') /\
    map it_n its = firstn (length its) (py_range step max_n step) /\
    Forall (fun it => it_pval it = oracle (it_sample it) popsize null_margin) its /\
    Forall (miss alpha) (removelast its) /\
    (ex = Broke ->
     exists pre it,
       its = pre ++ [it] /\ ltb (it_pval it) alpha = true /\
       G.n (vars (finish m popsize null_margin its g')) = Some (it_n it) /\
       G.pval (vars (finish m popsize null_margin its g')) = Some (it_pval it)) /\
    (ex = Ran_out ->
     Forall (miss alpha) its /\ map it_n its = py_range step max_n step) /\
    (forall i it,
        nth_error its i = Some it -> leb alpha (it_pval it) = true ->
        (S i < length (py_range step max_n step))%nat ->
        exists it', nth_error its (S i) = Some it' /\ it_n it' = it_n it + step).
Proof.
  intros Hs Ha Hp HN Hc Hal.
  rewrite (search_unroll oracle a popsize null_margin alpha) by assumption.
  destruct (unroll oracle a popsize null_margin alpha
              (py_range step max_n step) (gen m)) as [[its ex] g'] eqn:Hu.
  exists its, ex, g'. split; [ reflexivity | ].
  pose proof (unroll_shape _ _ _ _ _ _ _ _ _ _ Hu) as Hsh.
  split; [ exact (unroll_sizes _ _ _ _ _ _ _ _ _ _ Hu) | ].
  split.
  { eapply Forall_impl; [ | exact (unroll_passes _ _ _ _ _ _ _ _ _ _ Hu) ].
    intros it [H _]. exact H. }
  split; [ exact (unroll_misses _ _ _ _ _ _ _ _ _ _ Hu) | ].
  split.
  { intro He. subst ex. destruct Hsh as [pre [it [Hits [_ Hhit]]]].
    exists pre, it. split; [ exact Hits | ]. split; [ exact Hhit | ].
    subst its. unfold finish. cbn [vars].
    pose proof (fold_after_last pre it (vars m)) as Hl. cbv zeta in Hl.
    destruct Hl as [Hn [_ Hpv]]. split; assumption. }
  split; [ intro He; subst ex; exact Hsh | ].
  intros i it Hi Hge Hlen.
  destruct (unroll_continues _ _ _ _ _ _ _ _ _ _ Hu i it Hi
              (leb_not_ltb _ _ Hge) Hlen) as [it' [Hi' Hn']].
  exists it'. split; [ exact Hi' | ].
  rewrite Hn', (unroll_nth _ _ _ _ _ _ _ _ _ _ i it Hu Hi).
  rewrite !py_range_nth by lia. lia.
Qed.

(** The theorem at work: three ballots, sizes 20, 40, 60, 80 and an
    oracle answering [1/n] against a risk limit of [1/20]. *)
Lemma search_stops_at_first_success_witness :
  exists its ex g',
    search Stub.reciprocal 20 100 (Stub.tiny (decimal 1 20))
      = Ok ex (finish (Stub.tiny (decimal 1 20)) 3 (of_int (-1)) its g') /\
    map it_n its = firstn (length its) (py_range 20 100 20) /\
    Forall (miss (decimal 1 20)) (removelast its).
Proof.
  destruct (search_stops_at_first_success Stub.reciprocal 20 100
              (Stub.tiny (decimal 1 20)) Stub.three 3 (of_int (-1))
              (decimal 1 20))
    as [its [ex [g' [Hrun [Hsz [_ [Hmiss _]]]]]]];
    [ lia | discriminate | reflexivity | reflexivity | reflexivity
    | reflexivity | ].
  exists its, ex, g'. repeat split; assumption.
Defined.

(** ** C4: sample sizes above the population size *)

(** Three ballots, sizes 20 to 80: every sample is larger than the
    population, each is drawn and handed to the oracle, and the search ends
    without an exception. *)
Lemma oversized_samples_are_drawn :
  exists m',
    search Stub.reciprocal 20 100 (Stub.tiny zero) = Ok Ran_out m' /\
    G.N2 (vars (Stub.tiny zero)) = Some 3 /\
    length Stub.three = 3%nat /\
    map (fun cl => length (arg_sample cl)) (oracle_log m')
      = [20; 40; 60; 80]%nat /\
    map fst (evaluated (stdout m')) = [20; 40; 60; 80].
Proof.
  exists (machine_of (search Stub.reciprocal 20 100 (Stub.tiny zero))).
  split; [ apply outcome_Ok; vm_compute; reflexivity | ].
  split; [ reflexivity | ].
  split; [ reflexivity | ].
  split; vm_compute; reflexivity.
Qed.

(** C4 (amended): the search never rejects a sample size.  Sampling is
    with replacement: for a non-empty population every size of the range,
    below, equal to or above the population size, yields a sample of
    exactly that many ballots of the population, which is passed to the
    oracle; no exception is raised. *)
Theorem sample_size_is_never_rejected {RS : RandomState}
  (oracle : list float64 -> Z -> float64 -> float64)
  (step max_n : Z) (m : machine)
  (a : list float64) (popsize : Z) (null_margin alpha : float64) :
  0 < step -> a <> [] ->
  G.pop (vars m) = Some a -> G.N2 (vars m) = Some popsize ->
  G.c (vars m) = Some null_margin -> G.alpha2 (vars m) = Some alpha ->
  exists its ex g' m',
    search oracle step max_n m = Ok ex m' /\
    m' = finish m popsize null_margin its g' /\
    map it_n its = firstn (length its) (py_range step max_n step) /\
    Forall (fun it =>
              length (it_sample it) = Z.to_nat (it_n it) /\
              incl (it_sample it) a) its /\
    map arg_sample (oracle_log m')
      = map arg_sample (oracle_log m) ++ map it_sample its.
Proof.
  intros Hs Ha Hp HN Hc Hal.
  rewrite (search_unroll oracle a popsize null_margin alpha) by assumption.
  destruct (unroll oracle a popsize null_margin alpha
              (py_range step max_n step) (gen m)) as [[its ex] g'] eqn:Hu.
  exists its, ex, g'. eexists. split; [ reflexivity | ].
  split; [ reflexivity | ].
  split; [ exact (unroll_sizes _ _ _ _ _ _ _ _ _ _ Hu) | ].
  split.
  - eapply Forall_impl; [ | exact (unroll_passes _ _ _ _ _ _ _ _ _ _ Hu) ].
    intros it [_ [Hl Hi]]. split; [ exact Hl | exact (Hi Ha) ].
  - unfold finish. cbn [oracle_log].
    rewrite map_app, map_map. reflexivity.
Qed.

(** The theorem on the three ballots, where every size exceeds the
    population size. *)
Lemma sample_size_is_never_rejected_witness :
  exists its ex g' m',
    search Stub.reciprocal 20 100 (Stub.tiny zero) = Ok ex m' /\
    m' = finish (Stub.tiny zero) 3 (of_int (-1)) its g' /\
    Forall (fun it =>
              length (it_sample it) = Z.to_nat (it_n it) /\
              incl (it_sample it) Stub.three) its.
Proof.
  destruct (sample_size_is_never_rejected Stub.reciprocal 20 100
              (Stub.tiny zero) Stub.three 3 (of_int (-1)) zero)
    as [its [ex [g' [m' [Hrun [Hm [_ [Hall _]]]]]]]];
    [ lia | discriminate | reflexivity | reflexivity | reflexivity
    | reflexivity | ].
  exists its, ex, g', m'. repeat split; assumption.
Defined.

(** ** C5: degenerate inputs *)

(** A risk limit of 2 and a risk limit of 0 are both accepted: with 2 the
    search succeeds at the first size, with 0 it runs through the range. *)
Lemma degenerate_alpha_is_accepted :
  leb one (of_int 2) = true /\
  leb (of_int 0) zero = true /\
  (exists m',
      search Stub.reciprocal 20 100 (Stub.tiny (of_int 2)) = Ok Broke m' /\
      map fst (evaluated (stdout m')) = [20]) /\
  (exists m',
      search Stub.reciprocal 20 100 (Stub.tiny (of_int 0)) = Ok Ran_out m' /\
      map fst (evaluated (stdout m')) = [20; 40; 60; 80]).
Proof.
  split; [ reflexivity | ]. split; [ reflexivity | ].
  split.
  - exists (machine_of (search Stub.reciprocal 20 100 (Stub.tiny (of_int 2)))).
    split; [ apply outcome_Ok | ]; vm_compute; reflexivity.
  - exists (machine_of (search Stub.reciprocal 20 100 (Stub.tiny (of_int 0)))).
    split; [ apply outcome_Ok | ]; vm_compute; reflexivity.
Qed.

(** C5 (amended): only an empty population makes the search fail, and it
    does so in the sampling call of the first pass: [ValueError] reaches
    the caller, nothing has been printed, the oracle has not been called
    and nothing is retried.  The risk limit is never checked: for a
    non-empty population the search raises nothing, whatever [alpha2] is,
    zero, negative, one or more included. *)
Theorem only_an_empty_population_fails {RS : RandomState}
  (oracle : list float64 -> Z -> float64 -> float64)
  (step max_n : Z) (m : machine)
  (a : list float64) (popsize : Z) (null_margin alpha : float64) :
  0 < step -> step < max_n ->
  G.pop (vars m) = Some a -> G.N2 (vars m) = Some popsize ->
  G.c (vars m) = Some null_margin -> G.alpha2 (vars m) = Some alpha ->
  (a = [] ->
   exists m',
     search oracle step max_n m = Raise ValueError m' /\
     stdout m' = stdout m /\ oracle_log m' = oracle_log m /\ gen m' = gen m) /\
  (a <> [] ->
   exists ex m', search oracle step max_n m = Ok ex m').
Proof.
  intros Hs Hm Hp HN Hc Hal. split.
  - intro Ha. subst a. apply search_empty_pop; assumption.
  - intro Ha.
    rewrite (search_unroll oracle a popsize null_margin alpha) by assumption.
    destruct (unroll oracle a popsize null_margin alpha
                (py_range step max_n step) (gen m)) as [[its ex] g'].
    eexists. eexists. reflexivity.
Qed.

(** The theorem on a population without ballots and a risk limit of 0. *)
Lemma only_an_empty_population_fails_witness :
  exists m',
    search Stub.reciprocal 20 100 (Stub.nobody (of_int 0)) = Raise ValueError m' /\
    stdout m' = [] /\ oracle_log m' = [].
Proof.
  destruct (only_an_empty_population_fails Stub.reciprocal 20 100
              (Stub.nobody (of_int 0)) [] 0 (of_int (-1)) (of_int 0))
    as [Hempty _];
    [ lia | lia | reflexivity | reflexivity | reflexivity | reflexivity | ].
  destruct (Hempty eq_refl) as [m' [Hrun [Hout [Hlog _]]]].
  exists m'. repeat split; assumption.
Defined.

(** ** C6: running out of sizes *)

(** C6: on valid inputs the search always ends normally, by [break] or by
    running out of sizes, never by an exception; which of the two it was
    can be read off the output (the last printed pair has [pval < alpha2]
    exactly after a [break]); and when every evaluated size has
    [pval >= alpha2] the search has run out of sizes, after evaluating the
    whole range. *)
Theorem exhaustion_is_a_normal_outcome {RS : RandomState}
  (oracle : list float64 -> Z -> float64 -> float64)
  (step max_n : Z) (m : machine)
  (a : list float64) (popsize : Z) (null_margin alpha : float64) :
  0 < step -> a <> [] ->
  G.pop (vars m) = Some a -> G.N2 (vars m) = Some popsize ->
  G.c (vars m) = Some null_margin -> G.alpha2 (vars m) = Some alpha ->
  evaluated (stdout m) = [] ->
  exists ex m',
    search oracle step max_n m = Ok ex m' /\
    verdict (stdout m') alpha = ex /\
    ((forall k p, In (k, p) (evaluated (stdout m')) -> leb alpha p = true) ->
     ex = Ran_out /\
     map fst (evaluated (stdout m')) = py_range step max_n step).
Proof.
  intros Hs Ha Hp HN Hc Hal Hout.
  rewrite (search_unroll oracle a popsize null_margin alpha) by assumption.
  destruct (unroll oracle a popsize null_margin alpha
              (py_range step max_n step) (gen m)) as [[its ex] g'] eqn:Hu.
  eexists. eexists. split; [ reflexivity | ].
  unfold finish. cbn [stdout].
  split; [ exact (unroll_verdict _ _ _ _ _ _ _ _ _ _ Hu _ Hout) | ].
  intro Hall.
  pose proof (unroll_shape _ _ _ _ _ _ _ _ _ _ Hu) as Hsh.
  rewrite evaluated_app, Hout, app_nil_l in Hall.
  rewrite evaluated_app, Hout, app_nil_l, sizes_line_of.
  destruct ex.
  - destruct Hsh as [pre [it [Hits [_ Hhit]]]].
    assert (Hge : leb alpha (it_pval it) = true).
    { apply (Hall (it_n it)). rewrite evaluated_line_of.
      apply in_map_iff. exists it. split; [ reflexivity | ].
      subst its. apply in_or_app. right. left. reflexivity. }
    apply leb_not_ltb in Hge. congruence.
  - split; [ reflexivity | apply Hsh ].
Qed.

(** The theorem on the three ballots with an oracle that always answers 1:
    the four sizes are evaluated and the search runs out of them. *)
Lemma exhaustion_is_a_normal_outcome_witness :
  exists m',
    search (Stub.constant one) 20 100 (Stub.tiny (decimal 1 20))
      = Ok Ran_out m' /\
    verdict (stdout m') (decimal 1 20) = Ran_out /\
    map fst (evaluated (stdout m')) = py_range 20 100 20.
Proof.
  destruct (exhaustion_is_a_normal_outcome (Stub.constant one) 20 100
              (Stub.tiny (decimal 1 20)) Stub.three 3 (of_int (-1))
              (decimal 1 20))
    as [ex [m' [Hrun [Hv Hall]]]];
    [ lia | discriminate | reflexivity | reflexivity | reflexivity
    | reflexivity | reflexivity | ].
  assert (Hm : machine_of (search (Stub.constant one) 20 100
                             (Stub.tiny (decimal 1 20))) = m')
    by (rewrite Hrun; reflexivity).
  destruct Hall as [Hex Hsz].
  - intros k p Hin. rewrite <- Hm in Hin. vm_compute in Hin.
    repeat match goal with
           | H : _ \/ _ |- _ => destruct H
           | H : (_, _) = (_, _) |- _ => inversion H; subst; clear H
           | H : False |- _ => destruct H
           end; reflexivity.
  - rewrite Hex in Hrun, Hv. exists m'.
    split; [ exact Hrun | ]. split; [ exact Hv | exact Hsz ].
Defined.

(** ** C7: the null margin *)

(** In a run of the notebook [c] is not the float -48900: it is the next
    float above it. *)
Lemma null_margin_is_not_minus_48900 :
  exists ex m',
    run_notebook (RS := Stub.lcg) (Stub.constant one) G.empty 0 = Ok ex m' /\
    G.c (vars m') = Some (S754_finite true 6720764824780799 (-37)) /\
    of_int (-48900) = S754_finite true 6720764824780800 (-37) /\
    ltb (of_int (-48900)) (S754_finite true 6720764824780799 (-37)) = true /\
    (G.c (vars m') = Some (of_int (-48900)) -> False).
Proof.
  destruct (run_notebook_passes (RS := Stub.lcg) (Stub.constant one) G.empty 0)
    as [its [ex [g' [m' [_ [Hrun [Hvars _]]]]]]].
  exists ex, m'. split; [ exact Hrun | ].
  rewrite Hvars, run_keeps_c, c_notebook_bits.
  split; [ reflexivity | ].
  split; [ vm_compute; reflexivity | ].
  split; [ vm_compute; reflexivity | ].
  intro H. vm_compute in H. discriminate H.
Qed.

(** C7 (amended): the null margin the oracle receives is the value of
    [(42500-52500) - lambda2*margin] in binary64 arithmetic, with
    [lambda2 = 1 - 0.9] itself a rounded float (0.09999999999999998).  For
    the notebook's inputs this is -48899.99999999999, that is
    -48900 + 2^-37, one unit in the last place above -48900; only in exact
    arithmetic does the formula give -48900. *)
Theorem null_margin_is_rounded {RS : RandomState}
  (oracle : list float64 -> Z -> float64 -> float64) (v : G.t) (g : rstate) :
  exists ex m',
    run_notebook oracle v g = Ok ex m' /\
    G.c (vars m') = Some c_notebook /\
    Forall (fun cl => arg_null_margin cl = c_notebook) (oracle_log m') /\
    G.lambda2 (vars m') = Some (S754_finite false 7205759403792792 (-56)) /\
    c_notebook = S754_finite true 6720764824780799 (-37) /\
    to_Q c_notebook = Some (-6720764824780799 # 137438953472)%Q /\
    (-6720764824780799 # 137438953472 == -48900 + (1 # 137438953472))%Q /\
    of_int (-48900) = S754_finite true 6720764824780800 (-37) /\
    ((42500 - 52500) - (1 - (9 # 10)) * 389000 == -48900)%Q.
Proof.
  destruct (run_notebook_passes oracle v g)
    as [its [ex [g' [m' [_ [Hrun [Hvars [_ [_ Hlog]]]]]]]]].
  exists ex, m'. split; [ exact Hrun | ].
  split; [ rewrite Hvars; apply run_keeps_c | ].
  split.
  { rewrite Hlog. apply Forall_forall. intros cl Hin.
    apply in_map_iff in Hin. destruct Hin as [it [Hcl _]].
    subst cl. reflexivity. }
  split.
  { rewrite Hvars.
    pose proof (fold_after_fixed its
                  (G.set_c c_notebook (G.set_pop pop_literal (G.cell2 v)))) as H.
    destruct H as [_ [H _]]. rewrite <- H. vm_compute. reflexivity. }
  split; [ apply c_notebook_bits | ].
  split; [ vm_compute; reflexivity | ].
  split; [ vm_compute; reflexivity | ].
  split; vm_compute; reflexivity.
Qed.

(** ** C8: the number of passes *)

(** C8: whatever the oracle answers and on any machine, the search ends,
    having printed at most [ceil(max_n / step)] lines and called the oracle
    at most [ceil(max_n / step)] times; on valid inputs there is exactly
    one call and one line per size evaluated.  The bound depends on
    [step] and [max_n] only. *)
Theorem search_is_bounded_by_the_ceiling {RS : RandomState}
  (oracle : list float64 -> Z -> float64 -> float64)
  (step max_n : Z) (m : machine) :
  0 < step -> 0 <= max_n ->
  exists r lines calls,
    search oracle step max_n m = r /\
    stdout (machine_of r) = stdout m ++ lines /\
    oracle_log (machine_of r) = oracle_log m ++ calls /\
    Z.of_nat (length lines) <= ceil_div max_n step /\
    Z.of_nat (length calls) <= ceil_div max_n step /\
    Z.of_nat (length (py_range step max_n step)) <= ceil_div max_n step /\
    (forall a popsize null_margin alpha,
        a <> [] ->
        G.pop (vars m) = Some a -> G.N2 (vars m) = Some popsize ->
        G.c (vars m) = Some null_margin -> G.alpha2 (vars m) = Some alpha ->
        exists its,
          lines = map line_of its /\
          calls = map (call_of popsize null_margin) its /\
          map it_n its = firstn (length its) (py_range step max_n step)).
Proof.
  intros Hs Hm.
  destruct (search_preserves oracle step max_n m)
    as [_ [lines [calls [Hout [Hlog [Hl Hc]]]]]].
  assert (Hlen : Z.of_nat (length (py_range step max_n step))
                 <= ceil_div max_n step).
  { rewrite py_range_length by exact Hs. apply search_range_len; assumption. }
  exists (search oracle step max_n m), lines, calls.
  split; [ reflexivity | ].
  split; [ exact Hout | ]. split; [ exact Hlog | ].
  split; [ lia | ]. split; [ lia | ]. split; [ exact Hlen | ].
  intros a popsize null_margin alpha Ha Hp HN Hcm Hal.
  rewrite (search_unroll oracle a popsize null_margin alpha) in Hout, Hlog
    by assumption.
  destruct (unroll oracle a popsize null_margin alpha
              (py_range step max_n step) (gen m)) as [[its ex] g'] eqn:Hu.
  unfold finish, machine_of in Hout, Hlog. cbn [stdout oracle_log] in Hout, Hlog.
  apply app_inv_head in Hout. apply app_inv_head in Hlog.
  exists its. split; [ symmetry; exact Hout | ].
  split; [ symmetry; exact Hlog | ].
  exact (unroll_sizes _ _ _ _ _ _ _ _ _ _ Hu).
Qed.

(** The theorem for the notebook's step and bound: at most 500 passes. *)
Lemma search_is_bounded_by_the_ceiling_witness :
  ceil_div 10000 20 = 500 /\
  exists lines calls,
    stdout (machine_of (search Stub.reciprocal 20 10000 (Stub.tiny zero)))
      = lines /\
    oracle_log (machine_of (search Stub.reciprocal 20 10000 (Stub.tiny zero)))
      = calls /\
    Z.of_nat (length lines) <= 500 /\ Z.of_nat (length calls) <= 500.
Proof.
  split; [ reflexivity | ].
  destruct (search_is_bounded_by_the_ceiling Stub.reciprocal 20 10000
              (Stub.tiny zero))
    as [r [lines [calls [Hr [Hout [Hlog [Hl [Hc _]]]]]]]]; [ lia | lia | ].
  subst r. exists lines, calls.
  split; [ exact Hout | ]. split; [ exact Hlog | ].
  split; [ exact Hl | exact Hc ].
Defined.

(** ** C9: reproducibility *)

(** C9: two runs of the notebook, from whatever namespaces and generator
    states, end the same way, print the same lines (hence the same pairs
    [(n, pvalue)]), make the same oracle calls and leave the same values
    in [pop], [c], [n], [sample] and [pval] and the same generator state.
    More generally, two runs of the seeded search with the same seed,
    step and bound on machines that hold the same population, population
    size, null margin and risk limit end the same way and print the same
    pairs. *)
Theorem runs_are_reproducible {RS : RandomState}
  (oracle : list float64 -> Z -> float64 -> float64) :
  (forall (v1 v2 : G.t) (g1 g2 : rstate),
      exists ex m1 m2,
        run_notebook oracle v1 g1 = Ok ex m1 /\
        run_notebook oracle v2 g2 = Ok ex m2 /\
        stdout m1 = stdout m2 /\
        oracle_log m1 = oracle_log m2 /\
        gen m1 = gen m2 /\
        G.pop (vars m1) = G.pop (vars m2) /\
        G.c (vars m1) = G.c (vars m2) /\
        G.n (vars m1) = G.n (vars m2) /\
        G.sample (vars m1) = G.sample (vars m2) /\
        G.pval (vars m1) = G.pval (vars m2)) /\
  (forall (s step max_n : Z) (m1 m2 : machine)
          (a : list float64) (popsize : Z) (null_margin alpha : float64),
      0 < step -> a <> [] ->
      G.pop (vars m1) = Some a -> G.N2 (vars m1) = Some popsize ->
      G.c (vars m1) = Some null_margin -> G.alpha2 (vars m1) = Some alpha ->
      G.pop (vars m2) = Some a -> G.N2 (vars m2) = Some popsize ->
      G.c (vars m2) = Some null_margin -> G.alpha2 (vars m2) = Some alpha ->
      evaluated (stdout m1) = evaluated (stdout m2) ->
      exists ex m1' m2',
        seeded_search oracle s step max_n m1 = Ok ex m1' /\
        seeded_search oracle s step max_n m2 = Ok ex m2' /\
        evaluated (stdout m1') = evaluated (stdout m2') /\
        gen m1' = gen m2').
Proof.
  split.
  - intros v1 v2 g1 g2.
    destruct (run_notebook_passes oracle v1 g1)
      as [its [ex [g' [m1 [Hu [Hrun1 [Hv1 [Hg1 [Ho1 Hl1]]]]]]]]].
    destruct (run_notebook_passes oracle v2 g2)
      as [its2 [ex2 [g2' [m2 [Hu2 [Hrun2 [Hv2 [Hg2 [Ho2 Hl2]]]]]]]]].
    rewrite Hu in Hu2. inversion Hu2; subst its2 ex2 g2'. clear Hu2.
    exists ex, m1, m2.
    split; [ exact Hrun1 | ]. split; [ exact Hrun2 | ].
    split; [ congruence | ]. split; [ congruence | ]. split; [ congruence | ].
    assert (Hne : its <> []).
    { apply (unroll_nonempty _ _ _ _ _ _ _ _ _ _ Hu). apply candidates_nonempty. }
    destruct (exists_last Hne) as [pre [it Hits]].
    rewrite Hv1, Hv2, Hits.
    pose proof (fold_after_last pre it
                  (G.set_c c_notebook (G.set_pop pop_literal (G.cell2 v1)))) as L1.
    pose proof (fold_after_last pre it
                  (G.set_c c_notebook (G.set_pop pop_literal (G.cell2 v2)))) as L2.
    cbv zeta in L1, L2.
    destruct L1 as [Ln1 [Ls1 Lp1]]. destruct L2 as [Ln2 [Ls2 Lp2]].
    pose proof (fold_after_fixed (pre ++ [it])
                  (G.set_c c_notebook (G.set_pop pop_literal (G.cell2 v1)))) as F1.
    pose proof (fold_after_fixed (pre ++ [it])
                  (G.set_c c_notebook (G.set_pop pop_literal (G.cell2 v2)))) as F2.
    unfold G.same_fixed in F1, F2.
    destruct F1 as [_ [_ [_ [_ [_ [_ [_ [Fp1 Fc1]]]]]]]].
    destruct F2 as [_ [_ [_ [_ [_ [_ [_ [Fp2 Fc2]]]]]]]].
    rewrite <- Fp1, <- Fp2, <- Fc1, <- Fc2, Ln1, Ln2, Ls1, Ls2, Lp1, Lp2.
    repeat split.
  - intros s step max_n m1 m2 a popsize null_margin alpha Hs Ha
           Hp1 HN1 Hc1 Hal1 Hp2 HN2 Hc2 Hal2 Hout.
    destruct (seeded_search_passes oracle s step max_n m1 a popsize
                null_margin alpha Hs Ha Hp1 HN1 Hc1 Hal1)
      as [its [ex [g' [m1' [Hu [Hrun1 [_ [Hg1 [Ho1 _]]]]]]]]].
    destruct (seeded_search_passes oracle s step max_n m2 a popsize
                null_margin alpha Hs Ha Hp2 HN2 Hc2 Hal2)
      as [its2 [ex2 [g2' [m2' [Hu2 [Hrun2 [_ [Hg2 [Ho2 _]]]]]]]]].
    rewrite Hu in Hu2. inversion Hu2; subst its2 ex2 g2'. clear Hu2.
    exists ex, m1', m2'.
    split; [ exact Hrun1 | ]. split; [ exact Hrun2 | ].
    split; [ | congruence ].
    rewrite Ho1, Ho2, !evaluated_app, Hout. reflexivity.
Qed.

(** The second part of the theorem on the three ballots: a fresh cell, and
    a machine with leftovers in [n] and [pval], earlier output and another
    generator state. *)
Lemma runs_are_reproducible_witness :
  exists ex m1' m2',
    seeded_search Stub.reciprocal 292018 20 100 (Stub.tiny (decimal 1 20))
      = Ok ex m1' /\
    seeded_search Stub.reciprocal 292018 20 100 (Stub.used (decimal 1 20))
      = Ok ex m2' /\
    evaluated (stdout m1') = evaluated (stdout m2') /\
    gen m1' = gen m2'.
Proof.
  apply (proj2 (runs_are_reproducible Stub.reciprocal) 292018 20 100
               (Stub.tiny (decimal 1 20)) (Stub.used (decimal 1 20))
               Stub.three 3 (of_int (-1)) (decimal 1 20));
    first [ lia | discriminate | reflexivity ].
Defined.

(** ** C10: what the loop leaves alone *)

(** C10: a pass of the loop, completed or interrupted by an exception,
    leaves [lambda1], [lambda2], [alpha1], [alpha2], [margin], [N1], [N2],
    [pop] and [c] as they were; so do the whole loop and the search.  The
    names a pass assigns are [n], [sample] and [pval]; besides them only
    the generator state, the output and the record of oracle calls
    change.  The step and the bound are not names at all: they are read
    once, when the range is built. *)
Theorem loop_assigns_only_n_sample_pval {RS : RandomState}
  (oracle : list float64 -> Z -> float64 -> float64) :
  (forall k m, G.same_fixed (vars m) (vars (machine_of (body oracle k m)))) /\
  (forall ns m,
      G.same_fixed (vars m) (vars (machine_of (for_range oracle ns m)))) /\
  (forall step max_n m,
      G.same_fixed (vars m) (vars (machine_of (search oracle step max_n m)))) /\
  (forall k m a popsize null_margin alpha,
      0 <= k -> a <> [] ->
      G.pop (vars m) = Some a -> G.N2 (vars m) = Some popsize ->
      G.c (vars m) = Some null_margin -> G.alpha2 (vars m) = Some alpha ->
      exists b s g' p,
        body oracle k m
          = Ok b (mk_machine
                    (G.set_pval p (G.set_sample s (G.set_n k (vars m))))
                    g' (stdout m ++ [Print_n k p])
                    (oracle_log m ++ [mk_call s popsize null_margin]))).
Proof.
  split; [ intros k m; apply (body_preserves oracle k m) | ].
  split; [ intros ns m; apply (for_range_preserves oracle ns m) | ].
  split; [ intros step max_n m; apply (search_preserves oracle step max_n m) | ].
  intros k m a popsize null_margin alpha Hk Ha Hp HN Hc Hal.
  rewrite (body_ok oracle a popsize null_margin alpha m Hp Ha HN Hc Hal k Hk).
  destruct (draw a k (gen m)) as [s g'].
  eexists. exists s, g'. eexists. reflexivity.
Qed.

(** The last part of the theorem on the three ballots, for the size 20. *)
Lemma loop_assigns_only_n_sample_pval_witness :
  exists b s g' p,
    body Stub.reciprocal 20 (Stub.tiny (decimal 1 20))
      = Ok b (mk_machine
                (G.set_pval p (G.set_sample s
                   (G.set_n 20 (vars (Stub.tiny (decimal 1 20))))))
                g'
                (stdout (Stub.tiny (decimal 1 20)) ++ [Print_n 20 p])
                (oracle_log (Stub.tiny (decimal 1 20))
                   ++ [mk_call s 3 (of_int (-1))])).
Proof.
  apply (proj2 (proj2 (proj2
           (loop_assigns_only_n_sample_pval Stub.reciprocal)))
           20 (Stub.tiny (decimal 1 20)) Stub.three 3 (of_int (-1))
           (decimal 1 20));
    first [ lia | discriminate | reflexivity ].
Defined.

(** * Further properties of the notebook's cells *)

From Stdlib Require Import Sorting.Sorted.

(** ** More on the comparison of floats *)

Lemma compare_cont_Eq (p q : positive) :
  PosDef.Pos.compare_cont Eq p q = (p ?= q)%positive.
Proof. reflexivity. Qed.

(** Turns the comparisons of exponents and mantissas in the goal and the
    hypotheses into equations and inequalities. *)
Ltac order_cases :=
  repeat match goal with
         | H : context [(?x ?= ?y)%Z] |- _ =>
             destruct (Z.compare_spec x y); try discriminate H
         | |- context [(?x ?= ?y)%Z] =>
             destruct (Z.compare_spec x y)
         | H : context [(?x ?= ?y)%positive] |- _ =>
             destruct (Pos.compare_spec x y); try discriminate H
         | |- context [(?x ?= ?y)%positive] =>
             destruct (Pos.compare_spec x y)
         end.

(** [p <= q] and [q < r] give [p < r]. *)
Lemma leb_ltb_trans (p q r : float64) :
  leb p q = true -> ltb q r = true -> ltb p r = true.
Proof.
  unfold leb, ltb, SFleb, SFltb.
  destruct p as [sp | sp | | sp mp ep], q as [sq | sq | | sq mq eq],
    r as [sr | sr | | sr mr er]; simpl; try discriminate;
    try (destruct sp; simpl; try discriminate);
    try (destruct sq; simpl; try discriminate);
    try (destruct sr; simpl; try discriminate);
    try reflexivity;
    intros H1 H2; repeat rewrite compare_cont_Eq in *;
    order_cases; simpl in *; try discriminate; try reflexivity; try lia.
Qed.

(** [p <= q] and [q <= r] give [p <= r]. *)
Lemma leb_trans (p q r : float64) :
  leb p q = true -> leb q r = true -> leb p r = true.
Proof.
  unfold leb, SFleb.
  destruct p as [sp | sp | | sp mp ep], q as [sq | sq | | sq mq eq],
    r as [sr | sr | | sr mr er]; simpl; try discriminate;
    try (destruct sp; simpl; try discriminate);
    try (destruct sq; simpl; try discriminate);
    try (destruct sr; simpl; try discriminate);
    try reflexivity;
    intros H1 H2; repeat rewrite compare_cont_Eq in *;
    order_cases; simpl in *; try discriminate; try reflexivity; try lia.
Qed.

(** ** X2: the cells of the CVR stratum *)


(** ** X3, X4: the exceptions of the last cell *)

Lemma candidates_head : py_range 20 10000 20 = 20 :: py_range 40 10000 20.
Proof. vm_compute. reflexivity. Qed.

Section Unbound.

Context {RS : RandomState}.
Variable oracle : list float64 -> Z -> float64 -> float64.

(** A pass with [N2] unbound: the sample is drawn and assigned, then the
    call of the oracle fails on its second argument. *)
Lemma body_no_N2 (a : list float64) (m : machine) (k : Z) :
  G.pop (vars m) = Some a -> a <> [] -> 0 <= k -> G.N2 (vars m) = None ->
  body oracle k m =
    let (s, g1) := draw a k (gen m) in
    Raise NameError
      (mk_machine (G.set_sample s (G.set_n k (vars m))) g1
                  (stdout m) (oracle_log m)).
Proof.
  intros Hp Ha Hk HN. run_m. rewrite Hp.
  destruct a as [ | x a']; [ congruence | ].
  assert (Hlt : (k <? 0) = false) by (apply Z.ltb_ge; exact Hk).
  m_simpl. rewrite Hlt.
  destruct (draw (x :: a') k (gen m)) as [s g1]. m_simpl.
  rewrite HN. reflexivity.
Qed.

(** A pass with [alpha2] unbound: the oracle has been called and the pair
    printed when the comparison fails. *)
Lemma body_no_alpha2 (a : list float64) (popsize : Z) (null_margin : float64)
  (m : machine) (k : Z) :
  G.pop (vars m) = Some a -> a <> [] -> 0 <= k ->
  G.N2 (vars m) = Some popsize -> G.c (vars m) = Some null_margin ->
  G.alpha2 (vars m) = None ->
  body oracle k m =
    let (s, g1) := draw a k (gen m) in
    Raise NameError
      (finish m popsize null_margin
              [mk_it k s (oracle s popsize null_margin)] g1).
Proof.
  intros Hp Ha Hk HN Hc Hal. run_m. rewrite Hp.
  destruct a as [ | x a']; [ congruence | ].
  assert (Hlt : (k <? 0) = false) by (apply Z.ltb_ge; exact Hk).
  m_simpl. rewrite Hlt.
  destruct (draw (x :: a') k (gen m)) as [s g1]. m_simpl.
  rewrite HN. m_simpl. rewrite Hc. m_simpl. rewrite Hal. reflexivity.
Qed.

(** The last cell up to its loop, when [lambda2] and [margin] are bound
    and the margin converts to a float. *)
Lemma cell7_prologue (m : machine) (l2 : float64) (mg : Z) :
  G.lambda2 (vars m) = Some l2 -> G.margin (vars m) = Some mg ->
  converts mg = true ->
  cell7 oracle m =
    bind (body oracle 20)
         (fun b => if b then ret Broke
                   else for_range oracle (py_range 40 10000 20))
         (mk_machine
            (G.set_c (null_margin_expr l2 mg) (G.set_pop pop_literal (vars m)))
            (seed 292018) (stdout m ++ [Print_c (null_margin_expr l2 mg)])
            (oracle_log m)).
Proof.
  intros Hl2 Hmg Hcv.
  unfold cell7, float_of_int, np_random_seed, assign, read, print.
  unfold bind at 1 2 3 4 5 6 7 8. m_simpl. rewrite Hl2. m_simpl.
  rewrite Hmg, Hcv. unfold ret at 1. m_simpl.
  fold (null_margin_expr l2 mg).
  unfold search, range, bind at 1, ret. simpl Z.eqb. cbv iota.
  rewrite candidates_head. reflexivity.
Qed.

(** The last cell with a margin too large for a float: the product
    [lambda2*margin] raises before [c] is assigned. *)
Lemma cell7_overflow (m : machine) (l2 : float64) (mg : Z) :
  G.lambda2 (vars m) = Some l2 -> G.margin (vars m) = Some mg ->
  converts mg = false ->
  cell7 oracle m =
    Raise OverflowError
      (mk_machine (G.set_pop pop_literal (vars m)) (seed 292018)
                  (stdout m) (oracle_log m)).
Proof.
  intros Hl2 Hmg Hcv.
  unfold cell7, float_of_int, np_random_seed, assign, read, bind. m_simpl.
  rewrite Hl2. m_simpl. rewrite Hmg, Hcv. reflexivity.
Qed.

End Unbound.

(** X3: the exceptions of the last cell.  When [lambda2] or [margin] is
    unbound, or when the margin converts to a float and [N2] or [alpha2] is
    unbound, the cell raises [NameError].  It raises [OverflowError] only
    when [lambda2] and [margin] are bound and the margin is an int too
    large for a float: the product [lambda2*margin] fails before [N2] and
    [alpha2] are looked at.  It never raises [ValueError]: the population
    it samples from is never empty and the sizes are never negative.
    Stale or missing values of [pop], [c], [n], [sample] and [pval] play no
    part: the cell assigns them before it reads them. *)
Theorem cell7_exceptions {RS : RandomState}
  (oracle : list float64 -> Z -> float64 -> float64) (m : machine) :
  (G.lambda2 (vars m) = None \/ G.margin (vars m) = None \/
   ((exists mg, G.margin (vars m) = Some mg /\ converts mg = true) /\
    (G.N2 (vars m) = None \/ G.alpha2 (vars m) = None)) ->
   outcome (cell7 oracle m) = inl NameError) /\
  (outcome (cell7 oracle m) = inl OverflowError ->
   exists l2 mg,
     G.lambda2 (vars m) = Some l2 /\ G.margin (vars m) = Some mg /\
     converts mg = false) /\
  (outcome (cell7 oracle m) = inl ValueError -> False).
Proof.
  destruct (G.lambda2 (vars m)) as [l2 | ] eqn:Hl2.
  2:{ unfold cell7, np_random_seed, assign, read, bind. m_simpl.
      rewrite Hl2. cbn [outcome].
      split; [ reflexivity | split; discriminate ]. }
  destruct (G.margin (vars m)) as [mg | ] eqn:Hmg.
  2:{ unfold cell7, np_random_seed, assign, read, bind. m_simpl.
      rewrite Hl2. m_simpl. rewrite Hmg. cbn [outcome].
      split; [ reflexivity | split; discriminate ]. }
  destruct (converts mg) eqn:Hcv.
  2:{ rewrite (cell7_overflow oracle m l2 mg Hl2 Hmg Hcv). cbn [outcome].
      split; [ | split; [ | discriminate ] ].
      - intros [H | [H | [[mg' [Hm Hc]] _]]]; try discriminate H.
        injection Hm as Hm. subst mg'. congruence.
      - intros _. exists l2, mg. repeat split. exact Hcv. }
  destruct (G.N2 (vars m)) as [popsize | ] eqn:HN.
  2:{ rewrite (cell7_prologue oracle m l2 mg Hl2 Hmg Hcv). unfold bind.
      rewrite (body_no_N2 oracle pop_literal);
        [ | reflexivity | apply pop_literal_nonempty | lia | exact HN ].
      cbn [gen].
      destruct (draw pop_literal 20 (seed 292018)) as [s g1]. cbn [outcome].
      split; [ reflexivity | split; discriminate ]. }
  destruct (G.alpha2 (vars m)) as [alpha | ] eqn:Hal.
  2:{ rewrite (cell7_prologue oracle m l2 mg Hl2 Hmg Hcv). unfold bind.
      rewrite (body_no_alpha2 oracle pop_literal popsize
                 (null_margin_expr l2 mg));
        [ | reflexivity | apply pop_literal_nonempty | lia | exact HN
          | reflexivity | exact Hal ].
      cbn [gen].
      destruct (draw pop_literal 20 (seed 292018)) as [s g1]. cbn [outcome].
      split; [ reflexivity | split; discriminate ]. }
  rewrite (cell7_unroll oracle m l2 mg popsize alpha Hl2 Hmg Hcv HN Hal).
  cbv zeta.
  destruct (unroll oracle pop_literal popsize (null_margin_expr l2 mg) alpha
              (py_range 20 10000 20) (seed 292018)) as [[its ex] g'].
  cbn [outcome].
  split; [ | split; discriminate ].
  intros [H | [H | [_ [H | H]]]]; discriminate H.
Qed.

(** The theorem on two namespaces: one in which none of the four names is
    bound, and one with [lambda2 = 0.1] and [margin = 2**1024]. *)
Lemma cell7_exceptions_witness :
  outcome (cell7 Stub.reciprocal (start (RS := Stub.lcg) G.empty 0))
    = inl NameError /\
  (exists l2 mg,
     G.lambda2 Stub.huge_margin = Some l2 /\
     G.margin Stub.huge_margin = Some mg /\ converts mg = false).
Proof.
  split.
  - apply (proj1 (cell7_exceptions Stub.reciprocal
                    (start (RS := Stub.lcg) G.empty 0))).
    left. reflexivity.
  - apply (proj1 (proj2 (cell7_exceptions Stub.reciprocal
                           (start (RS := Stub.lcg) Stub.huge_margin 0)))).
    vm_compute. reflexivity.
Defined.

(** X4: how far the last cell gets before it fails, in a kernel in which
    the import cell has run.  Without [lambda2] or [margin] it has reseeded
    the generator and assigned [pop], and printed nothing; the same holds
    when both are bound and the margin is an int too large for a float,
    where the failure is an [OverflowError].  With the two bound and a
    margin that converts, but without [N2], it has also printed [c], set
    [n] to 20 and drawn and assigned the first sample of 20 ballots, and
    has not called the oracle.  With [N2] but without [alpha2] the oracle
    has been called once and the pair for [n = 20] is printed: the first
    p-value is computed and shown, and only its comparison with the risk
    limit fails. *)
Theorem cell7_effects_before_failure {RS : RandomState}
  (oracle : list float64 -> Z -> float64 -> float64) (m : machine) :
  (G.lambda2 (vars m) = None \/ G.margin (vars m) = None ->
   exists m',
     cell7 oracle m = Raise NameError m' /\
     stdout m' = stdout m /\ oracle_log m' = oracle_log m /\
     gen m' = seed 292018 /\
     G.pop (vars m') = Some pop_literal /\ G.c (vars m') = G.c (vars m)) /\
  (forall l2 mg,
      G.lambda2 (vars m) = Some l2 -> G.margin (vars m) = Some mg ->
      converts mg = false ->
      exists m',
        cell7 oracle m = Raise OverflowError m' /\
        stdout m' = stdout m /\ oracle_log m' = oracle_log m /\
        gen m' = seed 292018 /\
        G.pop (vars m') = Some pop_literal /\ G.c (vars m') = G.c (vars m)) /\
  (forall l2 mg,
      G.lambda2 (vars m) = Some l2 -> G.margin (vars m) = Some mg ->
      converts mg = true ->
      G.N2 (vars m) = None ->
      exists m' s,
        cell7 oracle m = Raise NameError m' /\
        stdout m' = stdout m ++ [Print_c (null_margin_expr l2 mg)] /\
        oracle_log m' = oracle_log m /\
        G.n (vars m') = Some 20 /\
        G.sample (vars m') = Some s /\ length s = 20%nat /\
        gen m' = snd (draw pop_literal 20 (seed 292018))) /\
  (forall l2 mg popsize,
      G.lambda2 (vars m) = Some l2 -> G.margin (vars m) = Some mg ->
      converts mg = true ->
      G.N2 (vars m) = Some popsize -> G.alpha2 (vars m) = None ->
      exists m' s,
        cell7 oracle m = Raise NameError m' /\
        length s = 20%nat /\
        stdout m'
          = stdout m ++ [Print_c (null_margin_expr l2 mg);
                         Print_n 20 (oracle s popsize (null_margin_expr l2 mg))] /\
        oracle_log m'
          = oracle_log m ++ [mk_call s popsize (null_margin_expr l2 mg)] /\
        G.pval (vars m') = Some (oracle s popsize (null_margin_expr l2 mg))).
Proof.
  split; [ | split; [ | split ] ].
  - intro H.
    unfold cell7, np_random_seed, assign, read, bind. m_simpl.
    destruct (G.lambda2 (vars m)) as [l2 | ] eqn:Hl2.
    + destruct H as [H | H]; [ discriminate H | ].
      m_simpl. rewrite H. eexists. split; [ reflexivity | ].
      repeat split.
    + eexists. split; [ reflexivity | ]. repeat split.
  - intros l2 mg Hl2 Hmg Hcv.
    rewrite (cell7_overflow oracle m l2 mg Hl2 Hmg Hcv).
    eexists. split; [ reflexivity | ]. repeat split.
  - intros l2 mg Hl2 Hmg Hcv HN.
    rewrite (cell7_prologue oracle m l2 mg Hl2 Hmg Hcv). unfold bind.
    rewrite (body_no_N2 oracle pop_literal);
      [ | reflexivity | apply pop_literal_nonempty | lia | exact HN ].
    pose proof (draw_length pop_literal 20 (seed 292018)) as Hlen.
    cbn [gen].
    destruct (draw pop_literal 20 (seed 292018)) as [s g1].
    eexists. exists s. split; [ reflexivity | ].
    cbn [fst] in Hlen. repeat split. exact Hlen.
  - intros l2 mg popsize Hl2 Hmg Hcv HN Hal.
    rewrite (cell7_prologue oracle m l2 mg Hl2 Hmg Hcv). unfold bind.
    rewrite (body_no_alpha2 oracle pop_literal popsize
               (null_margin_expr l2 mg));
      [ | reflexivity | apply pop_literal_nonempty | lia | exact HN
        | reflexivity | exact Hal ].
    pose proof (draw_length pop_literal 20 (seed 292018)) as Hlen.
    cbn [gen].
    destruct (draw pop_literal 20 (seed 292018)) as [s g1].
    eexists. exists s. split; [ reflexivity | ].
    cbn [fst] in Hlen. split; [ exact Hlen | ].
    unfold finish. cbn [stdout oracle_log vars map line_of call_of it_n
                        it_sample it_pval fold_left].
    rewrite <- app_assoc. repeat split.
Qed.

(** The theorem on two kernels in which the import cell has run: one
    where no other cell has, and one where [lambda2] is [0.1] and [margin]
    is [2**1024]. *)
Lemma cell7_effects_before_failure_witness :
  (exists m',
     cell7 Stub.reciprocal (start (RS := Stub.lcg) G.empty 0)
       = Raise NameError m' /\
     stdout m' = [] /\ oracle_log m' = [] /\
     G.pop (vars m') = Some pop_literal) /\
  (exists m',
     cell7 Stub.reciprocal (start (RS := Stub.lcg) Stub.huge_margin 0)
       = Raise OverflowError m' /\
     stdout m' = [] /\ oracle_log m' = [] /\
     G.pop (vars m') = Some pop_literal /\ G.c (vars m') = None).
Proof.
  split.
  - destruct (proj1 (cell7_effects_before_failure Stub.reciprocal
                       (start (RS := Stub.lcg) G.empty 0))
                    (or_introl eq_refl))
      as [m' [Hrun [Hout [Hlog [_ [Hpop _]]]]]].
    exists m'. split; [ exact Hrun | ]. split; [ exact Hout | ].
    split; [ exact Hlog | exact Hpop ].
  - destruct (proj1 (proj2 (cell7_effects_before_failure Stub.reciprocal
                       (start (RS := Stub.lcg) Stub.huge_margin 0)))
                    (decimal 1 10) (2 ^ 1024) eq_refl eq_refl eq_refl)
      as [m' [Hrun [Hout [Hlog [_ [Hpop Hc]]]]]].
    exists m'. split; [ exact Hrun | ]. split; [ exact Hout | ].
    split; [ exact Hlog | ]. split; [ exact Hpop | exact Hc ].
Defined.

(** ** X5: a range without sizes *)

(** X5: when the bound does not exceed the step there is no size to try:
    the search ends at once by running out of sizes.  It draws nothing,
    calls nothing, prints nothing and assigns nothing, and it raises
    nothing either, whatever the namespace holds: an unbound or an empty
    population goes unnoticed. *)
Theorem search_over_an_empty_range {RS : RandomState}
  (oracle : list float64 -> Z -> float64 -> float64)
  (step max_n : Z) (m : machine) :
  0 < step -> max_n <= step ->
  py_range step max_n step = [] /\
  search oracle step max_n m = Ok Ran_out m.
Proof.
  intros Hs Hm.
  assert (E : py_range step max_n step = []).
  { unfold py_range, range_len.
    assert (E1 : (0 <? step) = true) by (apply Z.ltb_lt; lia).
    assert (E2 : (step <? max_n) = false) by (apply Z.ltb_ge; lia).
    rewrite E1, E2. reflexivity. }
  split; [ exact E | ].
  unfold search, range, bind.
  assert (E0 : (step =? 0) = false) by (apply Z.eqb_neq; lia).
  rewrite E0. unfold ret. rewrite E. reflexivity.
Qed.

(** The theorem for [range(20, 20, 20)] on a namespace without any
    name. *)
Lemma search_over_an_empty_range_witness :
  search Stub.reciprocal 20 20 (start (RS := Stub.lcg) G.empty 0)
    = Ok Ran_out (start (RS := Stub.lcg) G.empty 0).
Proof.
  apply (proj2 (search_over_an_empty_range Stub.reciprocal 20 20
                  (start (RS := Stub.lcg) G.empty 0)
                  ltac:(lia) ltac:(lia))).
Defined.

(** ** X6: p-values and risk limits that are not numbers *)

(** X6: a NaN never satisfies [pval < alpha2].  If the oracle answers NaN
    on every sample, or if the risk limit itself is NaN, the loop never
    breaks: every size of the range is evaluated and the search runs out
    of sizes, without any exception. *)
Theorem nan_never_stops_the_search {RS : RandomState}
  (oracle : list float64 -> Z -> float64 -> float64)
  (step max_n : Z) (m : machine)
  (a : list float64) (popsize : Z) (null_margin alpha : float64) :
  0 < step -> a <> [] ->
  G.pop (vars m) = Some a -> G.N2 (vars m) = Some popsize ->
  G.c (vars m) = Some null_margin -> G.alpha2 (vars m) = Some alpha ->
  alpha = nan \/ (forall s, oracle s popsize null_margin = nan) ->
  exists its g',
    search oracle step max_n m
      = Ok Ran_out (finish m popsize null_margin its g') /\
    map it_n its = py_range step max_n step.
Proof.
  intros Hs Ha Hp HN Hc Hal Hnan.
  rewrite (search_unroll oracle a popsize null_margin alpha) by assumption.
  destruct (unroll_never oracle a popsize null_margin alpha
              (py_range step max_n step) (gen m)) as [its [g' [Hu Hn]]].
  { intro s. destruct Hnan as [H | H].
    - subst alpha. apply ltb_nan_r.
    - rewrite H. apply ltb_nan_l. }
  rewrite Hu. exists its, g'. split; [ reflexivity | exact Hn ].
Qed.

(** The theorem on the three ballots with an oracle that answers NaN. *)
Lemma nan_never_stops_the_search_witness :
  exists its g',
    search (Stub.constant nan) 20 100 (Stub.tiny (decimal 1 20))
      = Ok Ran_out (finish (Stub.tiny (decimal 1 20)) 3 (of_int (-1)) its g') /\
    map it_n its = py_range 20 100 20.
Proof.
  apply (nan_never_stops_the_search (Stub.constant nan) 20 100
           (Stub.tiny (decimal 1 20)) Stub.three 3 (of_int (-1))
           (decimal 1 20));
    first [ lia | discriminate | reflexivity
          | right; intro s; reflexivity ].
Defined.

(** ** X7: the sizes in the output *)

Lemma py_range_from (start step : Z) (j len : nat) :
  0 < step ->
  StronglySorted Z.lt
    (map (fun i => start + Z.of_nat i * step) (seq j len)).
Proof.
  intro Hs. revert j. induction len as [ | len IH]; intro j; simpl.
  - constructor.
  - constructor; [ apply IH | ].
    apply Forall_forall. intros k Hk. apply in_map_iff in Hk.
    destruct Hk as [i [Hk Hi]]. apply in_seq in Hi. subst k. nia.
Qed.

(** A range with a positive step is strictly increasing. *)
Lemma py_range_sorted (start stop step : Z) :
  0 < step -> StronglySorted Z.lt (py_range start stop step).
Proof. intro Hs. apply py_range_from. exact Hs. Qed.

Lemma firstn_sorted (l : list Z) (k : nat) :
  StronglySorted Z.lt l -> StronglySorted Z.lt (firstn k l).
Proof.
  intro H. revert k. induction H as [ | x l Hl IH Hx]; intro k.
  - rewrite firstn_nil. constructor.
  - destruct k; simpl; [ constructor | ].
    constructor; [ apply IH | ].
    apply Forall_forall. intros y Hy.
    rewrite Forall_forall in Hx. apply Hx.
    rewrite <- (firstn_skipn k l). apply in_or_app. left. exact Hy.
Qed.

(** X7: the sizes a search prints are strictly increasing, hence without
    repetition, and each of them is a positive multiple of the step, at
    least the step and strictly below the bound. *)
Theorem printed_sizes_increase {RS : RandomState}
  (oracle : list float64 -> Z -> float64 -> float64)
  (step max_n : Z) (m : machine)
  (a : list float64) (popsize : Z) (null_margin alpha : float64) :
  0 < step -> a <> [] ->
  G.pop (vars m) = Some a -> G.N2 (vars m) = Some popsize ->
  G.c (vars m) = Some null_margin -> G.alpha2 (vars m) = Some alpha ->
  evaluated (stdout m) = [] ->
  exists ex m',
    search oracle step max_n m = Ok ex m' /\
    StronglySorted Z.lt (map fst (evaluated (stdout m'))) /\
    Forall (fun k => step <= k < max_n /\ k mod step = 0)
           (map fst (evaluated (stdout m'))).
Proof.
  intros Hs Ha Hp HN Hc Hal Hout.
  rewrite (search_unroll oracle a popsize null_margin alpha) by assumption.
  destruct (unroll oracle a popsize null_margin alpha
              (py_range step max_n step) (gen m)) as [[its ex] g'] eqn:Hu.
  eexists. eexists. split; [ reflexivity | ].
  rewrite sizes_finish, Hout. cbn [map app].
  rewrite (unroll_sizes _ _ _ _ _ _ _ _ _ _ Hu).
  split.
  - apply firstn_sorted. apply py_range_sorted. exact Hs.
  - apply Forall_forall. intros k Hk.
    assert (Hin : In k (py_range step max_n step)).
    { rewrite <- (firstn_skipn (length its) (py_range step max_n step)).
      apply in_or_app. left. exact Hk. }
    apply py_range_In in Hin; [ | exact Hs ].
    destruct Hin as [Hb Hmod]. split; [ exact Hb | ].
    replace k with ((k - step) + 1 * step) by ring.
    rewrite Z.mod_add by lia. exact Hmod.
Qed.

(** The theorem on the three ballots. *)
Lemma printed_sizes_increase_witness :
  exists ex m',
    search Stub.reciprocal 20 100 (Stub.tiny (decimal 1 20)) = Ok ex m' /\
    StronglySorted Z.lt (map fst (evaluated (stdout m'))) /\
    Forall (fun k => 20 <= k < 100 /\ k mod 20 = 0)
           (map fst (evaluated (stdout m'))).
Proof.
  apply (printed_sizes_increase Stub.reciprocal 20 100
           (Stub.tiny (decimal 1 20)) Stub.three 3 (of_int (-1))
           (decimal 1 20));
    first [ lia | discriminate | reflexivity ].
Defined.

(** ** X8: the samples along the generator's stream *)

Section Stream.

Context {RS : RandomState}.

(** Drawing [j] indices and then [k] more is drawing [j + k]. *)
Lemma randint_array_app (high : Z) (j k : nat) (s : rstate) :
  randint_array high (j + k) s =
    let (l1, s1) := randint_array high j s in
    let (l2, s2) := randint_array high k s1 in
    (l1 ++ l2, s2).
Proof.
  revert s. induction j as [ | j IH]; intro s; simpl.
  - destruct (randint_array high k s). reflexivity.
  - destruct (randint high s) as [i s1]. rewrite IH.
    destruct (randint_array high j s1) as [l1 s2].
    destruct (randint_array high k s2) as [l2 s3]. reflexivity.
Qed.

Variable oracle : list float64 -> Z -> float64 -> float64.
Variables (a : list float64) (popsize : Z) (null_margin alpha : float64).

(** The samples of the passes, one after the other, are the population
    read along the generator's stream. *)
Lemma unroll_stream (ns : list Z) (g : rstate)
  (its : list iteration) (ex : loop_exit) (g' : rstate) :
  unroll oracle a popsize null_margin alpha ns g = (its, ex, g') ->
  concat (map it_sample its)
    = map (take_at a)
          (fst (randint_array (Z.of_nat (length a)) (drawn its) g)) /\
  g' = snd (randint_array (Z.of_nat (length a)) (drawn its) g).
Proof.
  revert ns g its ex g'.
  apply (unroll_ind oracle a popsize null_margin alpha
           (fun _ g its _ g' =>
              concat (map it_sample its)
              = map (take_at a)
                    (fst (randint_array (Z.of_nat (length a)) (drawn its) g)) /\
              g' = snd (randint_array (Z.of_nat (length a)) (drawn its) g))).
  - intro g. split; reflexivity.
  - intros k rest g s g1 Hd Hl. unfold drawn. simpl.
    rewrite Nat.add_0_r, app_nil_r. unfold draw in Hd.
    destruct (randint_array (Z.of_nat (length a)) (Z.to_nat k) g) as [idx g2].
    inversion Hd; subst. split; reflexivity.
  - intros k rest g s g1 its ex g2 Hd Hl Hu [IHs IHg].
    unfold drawn in *. simpl. rewrite randint_array_app.
    unfold draw in Hd.
    destruct (randint_array (Z.of_nat (length a)) (Z.to_nat k) g) as [idx g3].
    inversion Hd; subst s g1.
    destruct (randint_array (Z.of_nat (length a))
                (list_sum (map (fun it => Z.to_nat (it_n it)) its)) g3)
      as [idx' g4].
    simpl in *. rewrite map_app, IHs. split; [ reflexivity | exact IHg ].
Qed.

End Stream.

(** X8: the samples a search hands to the oracle are consecutive stretches
    of one stream of indices: put end to end they are the population read
    at the first [n1 + n2 + ...] indices the generator yields from the
    state the search started in, and the generator is left in the state
    after exactly that many indices.  No index serves two samples and none
    is skipped, whatever the oracle answers. *)
Theorem samples_follow_the_stream {RS : RandomState}
  (oracle : list float64 -> Z -> float64 -> float64)
  (step max_n : Z) (m : machine)
  (a : list float64) (popsize : Z) (null_margin alpha : float64) :
  0 < step -> a <> [] ->
  G.pop (vars m) = Some a -> G.N2 (vars m) = Some popsize ->
  G.c (vars m) = Some null_margin -> G.alpha2 (vars m) = Some alpha ->
  exists its ex m',
    search oracle step max_n m = Ok ex m' /\
    map arg_sample (oracle_log m')
      = map arg_sample (oracle_log m) ++ map it_sample its /\
    map it_n its = firstn (length its) (py_range step max_n step) /\
    concat (map it_sample its)
      = map (take_at a)
            (fst (randint_array (Z.of_nat (length a)) (drawn its) (gen m))) /\
    gen m' = snd (randint_array (Z.of_nat (length a)) (drawn its) (gen m)).
Proof.
  intros Hs Ha Hp HN Hc Hal.
  rewrite (search_unroll oracle a popsize null_margin alpha) by assumption.
  destruct (unroll oracle a popsize null_margin alpha
              (py_range step max_n step) (gen m)) as [[its ex] g'] eqn:Hu.
  exists its, ex. eexists. split; [ reflexivity | ].
  destruct (unroll_stream oracle a popsize null_margin alpha _ _ _ _ _ Hu)
    as [Hcat Hg].
  unfold finish. cbn [oracle_log gen].
  split; [ rewrite map_app, map_map; reflexivity | ].
  split; [ exact (unroll_sizes _ _ _ _ _ _ _ _ _ _ Hu) | ].
  split; assumption.
Qed.

(** The theorem on the three ballots. *)
Lemma samples_follow_the_stream_witness :
  exists its ex m',
    search Stub.reciprocal 20 100 (Stub.tiny (decimal 1 20)) = Ok ex m' /\
    concat (map it_sample its)
      = map (take_at Stub.three)
            (fst (randint_array 3 (drawn its) (gen (Stub.tiny (decimal 1 20))))) /\
    gen m' = snd (randint_array 3 (drawn its) (gen (Stub.tiny (decimal 1 20)))).
Proof.
  destruct (samples_follow_the_stream Stub.reciprocal 20 100
              (Stub.tiny (decimal 1 20)) Stub.three 3 (of_int (-1))
              (decimal 1 20))
    as [its [ex [m' [Hrun [_ [_ [Hcat Hg]]]]]]];
    [ lia | discriminate | reflexivity | reflexivity | reflexivity
    | reflexivity | ].
  exists its, ex, m'. split; [ exact Hrun | ].
  split; [ exact Hcat | exact Hg ].
Defined.

(** ** X9: risk limits outside the unit interval *)

(** The first size of a range that has one. *)
Lemma py_range_first (step max_n : Z) :
  0 < step -> step < max_n ->
  exists rest, py_range step max_n step = step :: rest.
Proof.
  intros Hs Hm.
  assert (Hlen : 0 < range_len step max_n step).
  { unfold range_len.
    assert (E1 : (0 <? step) = true) by (apply Z.ltb_lt; lia).
    assert (E2 : (step <? max_n) = true) by (apply Z.ltb_lt; lia).
    rewrite E1, E2.
    assert (0 <= (max_n - step - 1) / step) by (apply Z.div_pos; lia). lia. }
  unfold py_range.
  destruct (Z.to_nat (range_len step max_n step)) as [ | len] eqn:E; [ lia | ].
  simpl. eexists. f_equal. lia.
Qed.

(** X9: what the unchecked risk limit does, for an oracle whose p-values
    lie between 0 and 1.  With [alpha2 <= 0] no pass can succeed: the
    search evaluates the whole range and runs out of sizes.  With
    [alpha2 > 1] the first pass succeeds whatever the sample is: the
    search stops at the first size, after one oracle call. *)
Theorem degenerate_risk_limits {RS : RandomState}
  (oracle : list float64 -> Z -> float64 -> float64)
  (step max_n : Z) (m : machine)
  (a : list float64) (popsize : Z) (null_margin alpha : float64) :
  0 < step -> a <> [] ->
  G.pop (vars m) = Some a -> G.N2 (vars m) = Some popsize ->
  G.c (vars m) = Some null_margin -> G.alpha2 (vars m) = Some alpha ->
  (forall s, leb zero (oracle s popsize null_margin) = true /\
             leb (oracle s popsize null_margin) one = true) ->
  (leb alpha zero = true ->
   exists its g',
     search oracle step max_n m
       = Ok Ran_out (finish m popsize null_margin its g') /\
     map it_n its = py_range step max_n step) /\
  (ltb one alpha = true -> step < max_n ->
   exists s g',
     search oracle step max_n m
       = Ok Broke (finish m popsize null_margin
                     [mk_it step s (oracle s popsize null_margin)] g') /\
     length s = Z.to_nat step).
Proof.
  intros Hs Ha Hp HN Hc Hal Hunit.
  rewrite (search_unroll oracle a popsize null_margin alpha) by assumption.
  split.
  - intro Hneg.
    destruct (unroll_never oracle a popsize null_margin alpha
                (py_range step max_n step) (gen m)) as [its [g' [Hu Hn]]].
    { intro s. apply leb_not_ltb.
      apply (leb_trans alpha zero); [ exact Hneg | apply Hunit ]. }
    rewrite Hu. exists its, g'. split; [ reflexivity | exact Hn ].
  - intros Hbig Hm.
    destruct (py_range_first step max_n Hs Hm) as [rest Hr].
    rewrite Hr. simpl.
    pose proof (draw_length a step (gen m)) as Hlen.
    destruct (draw a step (gen m)) as [s g1].
    assert (Hlt : ltb (oracle s popsize null_margin) alpha = true).
    { apply (leb_ltb_trans _ one); [ apply Hunit | exact Hbig ]. }
    rewrite Hlt. exists s, g1. split; [ reflexivity | exact Hlen ].
Qed.

(** The theorem on the three ballots with a risk limit of 2 and an
    oracle that always answers one half. *)
Lemma degenerate_risk_limits_witness :
  exists s g',
    search (Stub.constant (decimal 1 2)) 20 100 (Stub.tiny (of_int 2))
      = Ok Broke (finish (Stub.tiny (of_int 2)) 3 (of_int (-1))
                    [mk_it 20 s (decimal 1 2)] g') /\
    length s = 20%nat.
Proof.
  destruct (degenerate_risk_limits (Stub.constant (decimal 1 2)) 20 100
              (Stub.tiny (of_int 2)) Stub.three 3 (of_int (-1)) (of_int 2))
    as [_ Hbig];
    [ lia | discriminate | reflexivity | reflexivity | reflexivity
    | reflexivity | intro s; split; reflexivity | ].
  apply Hbig; [ reflexivity | lia ].
Defined.

(** ** X10: running the last cell again *)

(** The namespace after at least one pass: the fixed names as they were,
    and the last pass in [n], [sample] and [pval]. *)
Lemma fold_after_snoc (pre : list iteration) (it : iteration) (v : G.t) :
  fold_left after (pre ++ [it]) v
  = G.mk (G.lambda1 v) (G.lambda2 v) (G.alpha1 v) (G.alpha2 v) (G.margin v)
         (G.N1 v) (G.N2 v) (G.pop v) (G.c v)
         (Some (it_n it)) (Some (it_sample it)) (Some (it_pval it)).
Proof.
  revert v. induction pre as [ | x pre IH]; intro v.
  - reflexivity.
  - change (fold_left after ((x :: pre) ++ [it]) v)
      with (fold_left after (pre ++ [it]) (after v x)).
    rewrite IH. reflexivity.
Qed.

(** After at least one pass the namespace depends on where it started
    through the fixed names only. *)
Lemma fold_after_eq (its : list iteration) (v w : G.t) :
  its <> [] -> G.same_fixed v w ->
  fold_left after its v = fold_left after its w.
Proof.
  intros Hne Hvw.
  destruct (exists_last Hne) as [pre [it Hits]]. subst its.
  rewrite !fold_after_snoc.
  destruct Hvw as [H1 [H2 [H3 [H4 [H5 [H6 [H7 [H8 H9]]]]]]]].
  rewrite H1, H2, H3, H4, H5, H6, H7, H8, H9. reflexivity.
Qed.

(** X10: with [lambda2], [margin], [N2] and [alpha2] bound and a margin
    that converts to a float (one too large for a float makes the cell
    raise [OverflowError] instead), the last cell ends normally, and
    executing it a second time, in the namespace the first execution left
    and from any state of the generator, ends in the same way and leaves
    exactly the same machine: the same namespace, the same generator
    state, the same output and the same oracle calls. *)
Theorem cell7_again_changes_nothing {RS : RandomState}
  (oracle : list float64 -> Z -> float64 -> float64)
  (v : G.t) (g : rstate) (l2 : float64) (mg popsize : Z) (alpha : float64) :
  G.lambda2 v = Some l2 -> G.margin v = Some mg ->
  converts mg = true ->
  G.N2 v = Some popsize -> G.alpha2 v = Some alpha ->
  exists ex m1,
    cell7 oracle (start v g) = Ok ex m1 /\
    forall g2, cell7 oracle (start (vars m1) g2) = Ok ex m1.
Proof.
  intros Hl2 Hmg Hcv HN Hal.
  rewrite (cell7_unroll oracle (start v g) l2 mg popsize alpha)
    by assumption.
  cbv zeta.
  destruct (unroll oracle pop_literal popsize (null_margin_expr l2 mg) alpha
              (py_range 20 10000 20) (seed 292018)) as [[its ex] g'] eqn:Hu.
  eexists. eexists. split; [ reflexivity | ].
  intro g2.
  assert (Hne : its <> []).
  { apply (unroll_nonempty _ _ _ _ _ _ _ _ _ _ Hu). apply candidates_nonempty. }
  pose proof (fold_after_fixed its
                (G.set_c (null_margin_expr l2 mg) (G.set_pop pop_literal v)))
    as F.
  unfold finish. cbn [vars start].
  set (w := fold_left after its
              (G.set_c (null_margin_expr l2 mg) (G.set_pop pop_literal v)))
    in *.
  assert (Hw : G.lambda2 w = Some l2 /\ G.margin w = Some mg /\
               G.N2 w = Some popsize /\ G.alpha2 w = Some alpha).
  { unfold G.same_fixed in F.
    cbn [G.set_c G.set_pop G.lambda1 G.lambda2 G.alpha1 G.alpha2 G.margin
         G.N1 G.N2 G.pop G.c] in F.
    destruct F as [_ [F2 [_ [F4 [F5 [_ [F7 _]]]]]]].
    repeat split; congruence. }
  destruct Hw as [Hw2 [Hwm [HwN Hwa]]].
  rewrite (cell7_unroll oracle (start w g2) l2 mg popsize alpha)
    by assumption.
  cbv zeta. rewrite Hu. unfold finish. cbn [vars start stdout oracle_log].
  f_equal. f_equal. unfold w at 2. clearbody w.
  apply fold_after_eq; [ exact Hne | ].
  unfold G.same_fixed in *.
  cbn [G.set_c G.set_pop G.lambda1 G.lambda2 G.alpha1 G.alpha2 G.margin
       G.N1 G.N2 G.pop G.c] in *.
  repeat match goal with H : _ /\ _ |- _ => destruct H end.
  repeat split; congruence.
Qed.

(** The theorem after the import cell and the second cell. *)
Lemma cell7_again_changes_nothing_witness :
  exists ex m1,
    cell7 Stub.reciprocal (start (RS := Stub.lcg) (G.cell2 G.empty) 0)
      = Ok ex m1 /\
    cell7 Stub.reciprocal (start (RS := Stub.lcg) (vars m1) 12345)
      = Ok ex m1.
Proof.
  destruct (cell7_again_changes_nothing (RS := Stub.lcg) Stub.reciprocal
              (G.cell2 G.empty) 0 (sub (of_int 1) (decimal 9 10)) 389000
              100000 (decimal 404 10000) eq_refl eq_refl eq_refl eq_refl
              eq_refl)
    as [ex [m1 [H1 H2]]].
  exists ex, m1. split; [ exact H1 | exact (H2 12345) ].
Defined.

(** ** X11: what the oracle is asked in the notebook *)

Lemma pop_literal_values (x : float64) :
  In x pop_literal -> x = of_int 0 \/ x = of_int 1 \/ x = nan.
Proof.
  unfold pop_literal, py_repeat. intro H.
  apply in_app_or in H. destruct H as [H | H].
  - apply repeat_spec in H. auto.
  - apply in_app_or in H. destruct H as [H | H];
      apply repeat_spec in H; auto.
Qed.

(** X11: in a run of the notebook, whatever the oracle answers and
    whatever the generator yields, every call of the oracle passes the
    population size 100000, which is the length of [pop], and a sample
    whose size is a multiple of 20 between 20 and 9980, so always smaller
    than the population, and whose values are all 0.0, 1.0 or NaN. *)
Theorem oracle_calls_of_the_notebook {RS : RandomState}
  (oracle : list float64 -> Z -> float64 -> float64) (v : G.t) (g : rstate) :
  exists ex m',
    run_notebook oracle v g = Ok ex m' /\
    Z.of_nat (length pop_literal) = 100000 /\
    Forall (fun cl =>
              arg_popsize cl = 100000 /\
              20 <= Z.of_nat (length (arg_sample cl)) <= 9980 /\
              Z.of_nat (length (arg_sample cl)) mod 20 = 0 /\
              Forall (fun x => x = of_int 0 \/ x = of_int 1 \/ x = nan)
                     (arg_sample cl))
           (oracle_log m').
Proof.
  destruct (run_notebook_passes oracle v g)
    as [its [ex [g' [m' [Hu [Hrun [_ [_ [_ Hlog]]]]]]]]].
  exists ex, m'. split; [ exact Hrun | ].
  split; [ apply pop_literal_length | ].
  rewrite Hlog. apply Forall_forall. intros cl Hcl.
  apply in_map_iff in Hcl. destruct Hcl as [it [Hcl Hit]]. subst cl.
  cbn [call_of arg_popsize arg_sample].
  pose proof (unroll_passes _ _ _ _ _ _ _ _ _ _ Hu) as Hp.
  rewrite Forall_forall in Hp. destruct (Hp it Hit) as [_ [Hlen Hincl]].
  assert (Hin : In (it_n it) (py_range 20 10000 20)).
  { pose proof (unroll_sizes _ _ _ _ _ _ _ _ _ _ Hu) as Hs.
    rewrite <- (firstn_skipn (length its) (py_range 20 10000 20)).
    apply in_or_app. left. rewrite <- Hs. apply in_map. exact Hit. }
  apply candidates_In in Hin. destruct Hin as [Hb Hmod].
  rewrite Hlen, Z2Nat.id by lia.
  split; [ reflexivity | ].
  split.
  { split; [ lia | ].
    assert (it_n it = 20 * (it_n it / 20)) by (apply Z.div_exact; lia).
    assert (it_n it / 20 < 500) by (apply Z.div_lt_upper_bound; lia).
    lia. }
  split; [ exact Hmod | ].
  apply Forall_forall. intros x Hx.
  apply pop_literal_values. apply (Hincl pop_literal_nonempty). exact Hx.
Qed.

(** ** X12: the output recorded in the notebook *)

Lemma unroll_cons {RS : RandomState}
  (oracle : list float64 -> Z -> float64 -> float64)
  (a : list float64) (popsize : Z) (null_margin alpha : float64)
  (k : Z) (rest : list Z) (g : rstate) :
  unroll oracle a popsize null_margin alpha (k :: rest) g =
    let (s, g1) := draw a k g in
    let p := oracle s popsize null_margin in
    if ltb p alpha then ([mk_it k s p], Broke, g1)
    else
      let '(its, ex, g2) := unroll oracle a popsize null_margin alpha rest g1 in
      (mk_it k s p :: its, ex, g2).
Proof. reflexivity. Qed.

(** X12: the notebook records two lines of output, [c= ...] and one pair
    for [n= 20].  That is what the cell prints, and all it prints, whenever
    the oracle's answer on the first sample, the 20 ballots drawn right
    after the seeding, is below [alpha2 = 0.0404], as the recorded p-value
    0.00136312335797 is: the loop then breaks in its first pass, after one
    oracle call, with [n = 20]. *)
Theorem first_pass_success_prints_two_lines {RS : RandomState}
  (oracle : list float64 -> Z -> float64 -> float64) (v : G.t) (g : rstate) :
  ltb (oracle (fst (draw pop_literal 20 (seed 292018))) 100000 c_notebook)
      (decimal 404 10000) = true ->
  ltb (decimal 136312335797 100000000000000) (decimal 404 10000) = true /\
  exists m',
    run_notebook oracle v g = Ok Broke m' /\
    stdout m'
      = [Print_c c_notebook;
         Print_n 20 (oracle (fst (draw pop_literal 20 (seed 292018)))
                            100000 c_notebook)] /\
    oracle_log m'
      = [mk_call (fst (draw pop_literal 20 (seed 292018))) 100000 c_notebook] /\
    G.n (vars m') = Some 20 /\
    gen m' = snd (draw pop_literal 20 (seed 292018)).
Proof.
  intro Hlt. split; [ vm_compute; reflexivity | ].
  destruct (run_notebook_passes oracle v g)
    as [its [ex [g' [m' [Hu [Hrun [Hvars [Hgen [Hout Hlog]]]]]]]]].
  rewrite candidates_head, unroll_cons in Hu.
  destruct (draw pop_literal 20 (seed 292018)) as [s g1].
  cbn [fst snd] in *. rewrite Hlt in Hu.
  injection Hu as Hits Hex Hg.
  exists m'. rewrite Hex. split; [ exact Hrun | ].
  split; [ rewrite Hout, <- Hits; reflexivity | ].
  split; [ rewrite Hlog, <- Hits; reflexivity | ].
  split; [ rewrite Hvars, <- Hits; reflexivity | congruence ].
Qed.

(** The theorem for an oracle that answers the recorded p-value. *)
Lemma first_pass_success_prints_two_lines_witness :
  exists m',
    run_notebook (RS := Stub.lcg)
      (Stub.constant (decimal 136312335797 100000000000000)) G.empty 0
      = Ok Broke m' /\
    stdout m'
      = [Print_c c_notebook;
         Print_n 20 (decimal 136312335797 100000000000000)] /\
    G.n (vars m') = Some 20.
Proof.
  destruct (first_pass_success_prints_two_lines (RS := Stub.lcg)
              (Stub.constant (decimal 136312335797 100000000000000))
              G.empty 0)
    as [_ [m' [Hrun [Hout [_ [Hn _]]]]]].
  { unfold Stub.constant. vm_compute. reflexivity. }
  exists m'. split; [ exact Hrun | ]. split; [ exact Hout | exact Hn ].
Defined.
